(** * toolkit: a shallow embedding of tools.go

    The Go package [toolkit] (file tools.go) is a set of helpers around the
    standard library: random strings, multipart uploads, directory creation,
    slugs, file download, and JSON over HTTP.  The methods are embedded as
    Rocq functions in a small state-and-panic monad.  The state holds the
    struct the receiver [t *Tools] points to and the state of everything
    outside the program (random source, file system, network).  Calls into
    the Go standard library are the fields of a [Platform] record. *)

From Stdlib Require Import ZArith String Ascii List Lia DecimalString.
From stdpp Require Import base option list gmap strings.

Local Open Scope string_scope.
Local Open Scope Z_scope.

(** ** Go values *)

Module Go.

(** A Go [error] value.  The dynamic types that tools.go tells apart with
    [errors.As] and [errors.Is] are separate constructors; every other error
    is known by its message only. *)
Inductive goerror : Type :=
| SyntaxError (msg : string) (Offset : Z)            (* *json.SyntaxError *)
| UnmarshalTypeError (msg Field : string) (Offset : Z) (* *json.UnmarshalTypeError *)
| InvalidUnmarshalError (msg : string)               (* *json.InvalidUnmarshalError *)
| ErrUnexpectedEOF                                   (* io.ErrUnexpectedEOF *)
| EOF                                                (* io.EOF *)
| ErrorString (msg : string).                        (* errors.New, fmt.Errorf, others *)

(** Comparing errors with [==] and [!=]. *)
#[global] Instance goerror_eq_dec : EqDecision goerror.
Proof. solve_decision. Defined.

(** [error] is an interface: [None] is the nil error. *)
Definition error : Type := option goerror.

(** The test [err != nil]. *)
Definition not_nil (err : error) : bool :=
  match err with
  | Some _ => true
  | None => false
  end.

(** err.Error() *)
Definition Error (e : goerror) : string :=
  match e with
  | SyntaxError msg _ => msg
  | UnmarshalTypeError msg _ _ => msg
  | InvalidUnmarshalError msg => msg
  | ErrUnexpectedEOF => "unexpected EOF"
  | EOF => "EOF"
  | ErrorString msg => msg
  end.

(** errors.New *)
Definition errors_New (msg : string) : error := Some (ErrorString msg).

(** What a call can do: return, or panic (run-time error). *)
Inductive outcome (A : Type) : Type :=
| Ret (a : A)
| Panic (msg : string).
Arguments Ret {A} a.
Arguments Panic {A} msg.

(** A rune is a Unicode code point (Go's int32, never negative here). *)
Definition rune : Type := Z.

Definition byte_of_ascii (c : ascii) : Z := Z.of_N (N_of_ascii c).
Definition ascii_of_byte (b : Z) : ascii := ascii_of_N (Z.to_N b).

(** The bytes of a string, each in 0..255. *)
Definition bytes (s : string) : list Z := map byte_of_ascii (list_ascii_of_string s).
Definition string_of_bytes (bs : list Z) : string :=
  string_of_list_ascii (map ascii_of_byte bs).

(** len(s) of a string: its number of bytes. *)
Definition len_string (s : string) : Z := Z.of_nat (String.length s).

End Go.
Export Go.

(** ** UTF-8 (package unicode/utf8)

    Go strings are byte sequences.  [[]rune(s)], [range s], [strings.ToLower]
    and the regexp engine read them rune by rune with utf8.DecodeRuneInString:
    a byte that does not start a well-formed encoding is the rune U+FFFD of
    width one. *)

Module Utf8.

Definition RuneError : rune := 0xFFFD.

(** The table [first] with its accept ranges: for a lead byte, the size of
    the encoding and the bounds of its second byte. *)
Definition lead (b0 : Z) : option (Z * Z * Z) :=
  if (0xC2 <=? b0) && (b0 <=? 0xDF) then Some (2, 0x80, 0xBF)
  else if b0 =? 0xE0 then Some (3, 0xA0, 0xBF)
  else if (0xE1 <=? b0) && (b0 <=? 0xEC) then Some (3, 0x80, 0xBF)
  else if b0 =? 0xED then Some (3, 0x80, 0x9F)
  else if (0xEE <=? b0) && (b0 <=? 0xEF) then Some (3, 0x80, 0xBF)
  else if b0 =? 0xF0 then Some (4, 0x90, 0xBF)
  else if (0xF1 <=? b0) && (b0 <=? 0xF3) then Some (4, 0x80, 0xBF)
  else if b0 =? 0xF4 then Some (4, 0x80, 0x8F)
  else None.

Definition between (lo hi b : Z) : bool := (lo <=? b) && (b <=? hi).
Definition cont (b : Z) : bool := between 0x80 0xBF b.
Definition low6 (b : Z) : Z := Z.land b 0x3F.

Definition rune2 (b0 b1 : Z) : rune :=
  Z.lor (Z.shiftl (Z.land b0 0x1F) 6) (low6 b1).
Definition rune3 (b0 b1 b2 : Z) : rune :=
  Z.lor (Z.lor (Z.shiftl (Z.land b0 0x0F) 12) (Z.shiftl (low6 b1) 6)) (low6 b2).
Definition rune4 (b0 b1 b2 b3 : Z) : rune :=
  Z.lor (Z.lor (Z.lor (Z.shiftl (Z.land b0 0x07) 18) (Z.shiftl (low6 b1) 12))
               (Z.shiftl (low6 b2) 6)) (low6 b3).

(** The runes of a byte sequence, decoded front to back. *)
Fixpoint decode (bs : list Z) : list rune :=
  match bs with
  | [] => []
  | b0 :: t0 =>
    if b0 <? 0x80 then b0 :: decode t0
    else match lead b0 with
    | None => RuneError :: decode t0
    | Some (sz, lo, hi) =>
      match t0 with
      | [] => RuneError :: decode t0
      | b1 :: t1 =>
        if negb (between lo hi b1) then RuneError :: decode t0
        else if sz =? 2 then rune2 b0 b1 :: decode t1
        else match t1 with
        | [] => RuneError :: decode t0
        | b2 :: t2 =>
          if negb (cont b2) then RuneError :: decode t0
          else if sz =? 3 then rune3 b0 b1 b2 :: decode t2
          else match t2 with
          | [] => RuneError :: decode t0
          | b3 :: t3 =>
            if negb (cont b3) then RuneError :: decode t0
            else rune4 b0 b1 b2 b3 :: decode t3
          end
        end
      end
    end
  end.

(** utf8.AppendRune: the encoding of one rune; a surrogate or a value out
    of range is written as U+FFFD. *)
Definition enc3 (r : rune) : list Z :=
  [Z.lor 0xE0 (Z.shiftr r 12); Z.lor 0x80 (low6 (Z.shiftr r 6)); Z.lor 0x80 (low6 r)].

Definition encode_rune (r : rune) : list Z :=
  if (0 <=? r) && (r <=? 0x7F) then [r]
  else if (0 <=? r) && (r <=? 0x7FF) then
    [Z.lor 0xC0 (Z.shiftr r 6); Z.lor 0x80 (low6 r)]
  else if (r <? 0) || (0x10FFFF <? r) || between 0xD800 0xDFFF r then enc3 RuneError
  else if r <=? 0xFFFF then enc3 r
  else [Z.lor 0xF0 (Z.shiftr r 18); Z.lor 0x80 (low6 (Z.shiftr r 12));
        Z.lor 0x80 (low6 (Z.shiftr r 6)); Z.lor 0x80 (low6 r)].

(** The conversion [[]rune(s)]. *)
Definition runes (s : string) : list rune := decode (bytes s).

(** The conversion [string(rs)] of a rune slice. *)
Definition string_of_runes (rs : list rune) : string :=
  string_of_bytes (concat (map encode_rune rs)).

End Utf8.

(** ** The Go standard library and the outside world

    tools.go is glue around library calls.  What those calls do is not in the
    repository, so each one is an operation of the [Platform] the program runs
    on; [OS] is the state of everything outside the program.  An I/O call
    takes the state and returns its results with the new state. *)

(** The receiver: [type Tools struct]. *)
Record Tools : Type := mkTools {
  MaxFileSize : Z;
  AllowedFileTypes : list string;
  MaxJSONSize : Z;
  AllowUnknownFields : bool
}.

(** [type UploadedFile struct] *)
Record UploadedFile : Type := mkUploadedFile {
  NewFileName : string;
  OriginalFileName : string;
  FileSize : Z
}.

(** http.Header: a map from names to lists of values. *)
Abbreviation Header := (gmap string (list string)).

(** An http.ResponseWriter as the handler sees it: the header map that
    [w.Header()] hands out, the status written, the body written so far, and
    the error of the connection behind it (nil on a healthy connection).
    http.ResponseWriter is an interface: what its methods WriteHeader and
    Write do with these is the implementation's, see [rw_WriteHeader] and
    [rw_Write] below. *)
Record ResponseWriter : Type := mkResponseWriter {
  rw_header : Header;
  rw_code : option Z;
  rw_body : string;
  rw_write_err : error
}.

(** *http.Response as far as tools.go touches it; [resp_body] names the
    response body, whose open or closed state is part of the [OS]. *)
Record Response (BodyRef : Type) : Type := mkResponse {
  StatusCode : Z;
  resp_body : BodyRef
}.
Arguments mkResponse {BodyRef} _ _.
Arguments StatusCode {BodyRef} _.
Arguments resp_body {BodyRef} _.

Record Platform : Type := mkPlatform {
  OS : Type;
  (** Go values behind [interface{}] that callers hand in *)
  Value : Type;
  (** io.ReadCloser request bodies, *json.Decoder, *http.Client *)
  Reader : Type;
  Decoder : Type;
  Client : Type;
  (** *multipart.FileHeader, multipart.File, *os.File, response bodies *)
  FileHeader : Type;
  MultipartFile : Type;
  OsFile : Type;
  BodyRef : Type;
  (** *http.Request without its body and form *)
  RequestInfo : Type;

  (** crypto/rand.Prime(rand.Reader, bits).  The platform sources behind
      rand.Reader are documented to always succeed and tools.go asks for
      [len(r)] = 64 bits, so the error result, which the code drops, is nil
      and the number is not nil. *)
  rand_Prime : Z -> OS -> Z * OS;

  os_Stat : string -> OS -> error * OS;
  os_IsNotExist : error -> bool;
  os_MkdirAll : string -> Z -> OS -> error * OS;
  os_Create : string -> OS -> (option OsFile * error) * OS;
  osfile_Close : option OsFile -> OS -> error * OS;
  io_Copy : option OsFile -> MultipartFile -> OS -> (Z * error) * OS;

  filepath_Ext : string -> string;
  filepath_Join : string -> string -> string;
  path_Join : string -> string -> string;

  (** r.ParseMultipartForm(maxMemory): the error, or the file parts
      [r.MultipartForm.File] in the order in which [range] visits the map *)
  http_ParseMultipartForm :
    RequestInfo -> Reader -> Z -> OS -> (list (string * list FileHeader) * error) * OS;
  hdr_Filename : FileHeader -> string;
  hdr_Open : FileHeader -> OS -> (MultipartFile * error) * OS;
  (** infile.Read(buff): the buffer after the call, the count, the error *)
  file_Read : MultipartFile -> list Z -> OS -> (list Z * Z * error) * OS;
  file_Seek : MultipartFile -> Z -> Z -> OS -> (Z * error) * OS;
  file_Close : MultipartFile -> OS -> error * OS;
  http_DetectContentType : list Z -> string;
  strings_EqualFold : string -> string -> bool;

  (** unicode.ToLower on runes above U+007F (the case tables) *)
  unicode_To_LowerCase : rune -> rune;

  http_ServeFile :
    ResponseWriter -> RequestInfo -> Reader -> string -> OS -> ResponseWriter * OS;

  (** w.WriteHeader(status) of the writer that the caller hands in: the
      writer afterwards, or the panic of the implementation *)
  rw_WriteHeader : Z -> ResponseWriter -> OS -> outcome ResponseWriter * OS;
  (** w.Write(out): the writer afterwards and the error *)
  rw_Write : string -> ResponseWriter -> OS -> (ResponseWriter * error) * OS;

  http_MaxBytesReader : ResponseWriter -> Reader -> Z -> Reader;
  json_NewDecoder : Reader -> Decoder;
  DisallowUnknownFields : Decoder -> Decoder;
  (** dec.Decode(target): the decoder afterwards, what the target holds
      afterwards, the error *)
  json_Decode : Decoder -> option Value -> OS -> (Decoder * option Value * error) * OS;
  strconv_Quote : string -> string;

  (** json.Marshal; [inl] is the JSONResponse envelope of ErrorJSON, as
      (Error, Message) with Data nil *)
  json_Marshal : (bool * string) + Value -> string * error;

  http_NewRequest_ok : string -> string -> error;
  default_Client : Client;
  (** httpClient.Do(request) for a request with the given method, URI,
      body and headers *)
  client_Do :
    Client -> string -> string -> string -> Header -> OS -> (option (Response BodyRef) * error) * OS;
  body_Close : BodyRef -> OS -> error * OS;
  (** whether a response body has been closed *)
  body_closed : BodyRef -> OS -> bool
}.

(** ** The monad of the embedding: state and panics *)

Section Toolkit.

Context (P : Platform).

(** The state a method runs in: the struct behind the receiver [t] and the
    outside world. *)
Record State : Type := mkState {
  tools : Tools;
  world : OS P
}.

Definition M (A : Type) : Type := State -> outcome A * State.

Definition ret {A} (a : A) : M A := fun st => (Ret a, st).

Definition bind {A B} (m : M A) (k : A -> M B) : M B :=
  fun st =>
    match m st with
    | (Ret a, st') => k a st'
    | (Panic msg, st') => (Panic msg, st')
    end.

Definition panic {A} (msg : string) : M A := fun st => (Panic msg, st).

(** Reading a field of [t], and the assignment [t.MaxFileSize = v]. *)
Definition get_tools : M Tools := fun st => (Ret (tools st), st).

Definition set_MaxFileSize (v : Z) : M unit :=
  fun st =>
    let t := tools st in
    (Ret tt, mkState (mkTools v (AllowedFileTypes t) (MaxJSONSize t) (AllowUnknownFields t))
                     (world st)).

(** A library call that acts on the outside world. *)
Definition call {A} (f : OS P -> A * OS P) : M A :=
  fun st => let (a, w) := f (world st) in (Ret a, mkState (tools st) w).

Declare Scope go_scope.
Delimit Scope go_scope with go.
Notation "x <- m ;; k" := (bind m (fun x => k))
  (at level 100, m at next level, right associativity) : go_scope.
Notation "m ;;; k" := (bind m (fun _ => k))
  (at level 100, right associativity) : go_scope.
Local Open Scope go_scope.

(** ** RandomString *)

(** randomStringSource *)
Definition randomStringSource : string :=
  "abcdefghijklmnopqrstuvwxyzABCDEFGHIJKLMNOPQRSTUVWXYZ0123456789_+".

(** make([]rune, n): n zero runes; a negative length panics. *)
Definition make_runes (n : Z) : M (list rune) :=
  if n <? 0 then panic "makeslice: len out of range"
  else ret (replicate (Z.to_nat n) 0).

(** len of a slice *)
Definition len {A} (l : list A) : Z := Z.of_nat (length l).

(** p.Uint64() of a *big.Int: the low 64 bits of its absolute value. *)
Definition Uint64 (p : Z) : Z := Z.abs p mod 2 ^ 64.

(** x % y on uint64; a zero divisor panics. *)
Definition rem_uint64 (x y : Z) : M Z :=
  if y =? 0 then panic "integer divide by zero" else ret (x mod y).

(** r[i]; an index out of range panics. *)
Definition index {A} (r : list A) (i : Z) : M A :=
  if i <? 0 then panic "index out of range"
  else match r !! Z.to_nat i with
       | Some c => ret c
       | None => panic "index out of range"
       end.

(** The body of [for i := range s], for the indices still to visit. *)
Fixpoint RandomString_loop (r : list rune) (idx : list nat) (s : list rune)
  : M (list rune) :=
  match idx with
  | [] => ret s
  | i :: idx' =>
    p <- call (rand_Prime P (len r)) ;;
    let x := Uint64 p in
    let y := len r in
    j <- rem_uint64 x y ;;
    c <- index r j ;;
    RandomString_loop r idx' (<[i := c]> s)
  end.

Definition RandomString (n : Z) : M string :=
  s <- make_runes n ;;
  let r := Utf8.runes randomStringSource in
  s <- RandomString_loop r (seq 0 (length s)) s ;;
  ret (Utf8.string_of_runes s).

(** ** Slugify *)

(** unicode.ToLower *)
Definition unicode_ToLower (r : rune) : rune :=
  if r <=? 0x7F then
    (if (65 <=? r) && (r <=? 90) then r + (97 - 65) else r)
  else unicode_To_LowerCase P r.

(** strings.Map: the mapping applied rune by rune, a negative result
    dropping the rune. *)
Definition strings_Map (mapping : rune -> rune) (s : string) : string :=
  Utf8.string_of_runes
    (filter (fun r => 0 <= r) (map mapping (Utf8.runes s))).

(** strings.ToLower (on a string of ASCII only its fast path gives what
    the rune-by-rune path gives). *)
Definition strings_ToLower (s : string) : string := strings_Map unicode_ToLower s.

(** The character class [a-z\d] of the pattern; [\d] is ASCII only. *)
Definition in_class (r : rune) : bool :=
  ((97 <=? r) && (r <=? 122)) || ((48 <=? r) && (r <=? 57)).

(** re.ReplaceAllString(src, "-") for re = [^a-z\d]+, as the matcher runs
    over the runes of src: [in_match] says that the rune before was taken
    by the current (greedy) match, whose replacement is already written. *)
Fixpoint replace_from (in_match : bool) (rs : list rune) : list rune :=
  match rs with
  | [] => []
  | r :: t =>
    if in_class r then r :: replace_from false t
    else if in_match then replace_from true t
    else 45 :: replace_from true t
  end.

Definition ReplaceAllString (src : string) : string :=
  Utf8.string_of_runes (replace_from false (Utf8.runes src)).

(** trimLeftByte and trimRightByte of package strings *)
Fixpoint trimLeftByte (bs : list Z) (c : Z) : list Z :=
  match bs with
  | b :: t => if b =? c then trimLeftByte t c else bs
  | [] => []
  end.

Fixpoint trimRightByte (bs : list Z) (c : Z) : list Z :=
  match bs with
  | [] => []
  | b :: t =>
    match trimRightByte t c with
    | [] => if b =? c then [] else [b]
    | t' => b :: t'
    end
  end.

(** strings.Trim(s, "-"): a cutset of one ASCII byte. *)
Definition strings_Trim_byte (s : string) (c : Z) : string :=
  string_of_bytes (trimLeftByte (trimRightByte (bytes s) c) c).

Definition Slugify (s : string) : M (string * error) :=
  if String.eqb s "" then ret ("", errors_New "empty string not permitted")
  else
    let slug := strings_Trim_byte (ReplaceAllString (strings_ToLower s)) 45 in
    if len_string slug =? 0 then
      ret ("", errors_New "after removing unsafe characters, slug is zero length")
    else ret (slug, None).

(** ** CreateDirIfNotExist *)

Definition CreateDirIfNotExist (path : string) : M error :=
  let mode := 493 (* 0755 *) in
  err <- call (os_Stat P path) ;;
  if os_IsNotExist P err then
    err <- call (os_MkdirAll P path mode) ;;
    match err with
    | Some e => ret (Some e)
    | None => ret None
    end
  else ret None.

(** ** UploadFiles and UploadOneFile *)

(** *http.Request: what tools.go reads of it, and its Body. *)
Record Request : Type := mkRequest {
  req_info : RequestInfo P;
  Body : Reader P
}.

(** [defer d] in front of [body]: [d] runs when [body] is left, whether it
    returns or panics; what [d] returns is dropped. *)
Definition defer {A B} (d : M B) (body : M A) : M A :=
  fun st =>
    match body st with
    | (o, st') => (o, snd (d st'))
    end.

(** The variadic [rename ...bool] with its default. *)
Definition rename_flag (rename : list bool) : bool :=
  match rename with
  | b :: _ => b
  | [] => true
  end.

(** The loop over t.AllowedFileTypes that sets [allowed]. *)
Definition type_allowed (AllowedFileTypes : list string) (fileType : string) : bool :=
  if 0 <? len AllowedFileTypes then
    fold_left (fun allowed x => if strings_EqualFold P fileType x then true else allowed)
              AllowedFileTypes false
  else true.

(** The second half of the function literal that is called for each file
    header, from [infile.Seek(0, 0)] on: the part is stored under its new
    name and added to the files stored so far. *)
Definition store_part (uploadDir : string) (renameFile : bool) (hdr : FileHeader P)
    (infile : MultipartFile P) (uploadedFiles : list UploadedFile)
  : M (list UploadedFile * error) :=
  sk <- call (file_Seek P infile 0 0) ;;
  if not_nil (snd sk) then ret ([], snd sk) else
  let OriginalFileName := hdr_Filename P hdr in
  NewFileName <-
    (if renameFile then
       rs <- RandomString 25 ;;
       ret (rs ++ filepath_Ext P (hdr_Filename P hdr))%string
     else ret (hdr_Filename P hdr)) ;;
  (* var outfile *os.File; the deferred Close has the nil receiver *)
  defer (call (osfile_Close P None)) (
    cr <- call (os_Create P (filepath_Join P uploadDir NewFileName)) ;;
    let '(outfile, err) := cr in
    if not_nil err then ret ([], err) else
    cp <- call (io_Copy P outfile infile) ;;
    let '(fileSize, err) := cp in
    if not_nil err then ret ([], err) else
    let uploadedFile := mkUploadedFile NewFileName OriginalFileName fileSize in
    ret ((uploadedFiles ++ [uploadedFile])%list, None)).

(** The function literal called for each file header: it gets the files
    stored so far and returns them with the new one, or nil and the error.
    Its first half opens the part, reads 512 bytes and checks the type. *)
Definition upload_part (uploadDir : string) (renameFile : bool) (hdr : FileHeader P)
    (uploadedFiles : list UploadedFile) : M (list UploadedFile * error) :=
  o <- call (hdr_Open P hdr) ;;
  let '(infile, err) := o in
  if not_nil err then ret ([], err) else
  defer (call (file_Close P infile)) (
    let buff := replicate 512 0 in
    rd <- call (file_Read P infile buff) ;;
    let '(buff, _, err) := rd in
    if not_nil err then ret ([], err) else
    (* check to see if the file type is permitted *)
    let fileType := http_DetectContentType P buff in
    t <- get_tools ;;
    let allowed := type_allowed (AllowedFileTypes t) fileType in
    if negb allowed then ret ([], errors_New "the uploaded file type is not permitted") else
    store_part uploadDir renameFile hdr infile uploadedFiles).

(** [for _, hdr := range fHeaders]; the boolean says that the loop body
    has executed [return]. *)
Fixpoint UploadFiles_headers (uploadDir : string) (renameFile : bool)
    (fHeaders : list (FileHeader P)) (uploadedFiles : list UploadedFile)
  : M (list UploadedFile * error * bool) :=
  match fHeaders with
  | [] => ret (uploadedFiles, None, false)
  | hdr :: rest =>
    res <- upload_part uploadDir renameFile hdr uploadedFiles ;;
    let '(uploadedFiles, err) := res in
    if not_nil err then ret (uploadedFiles, err, true)
    else UploadFiles_headers uploadDir renameFile rest uploadedFiles
  end.

(** [for _, fHeaders := range r.MultipartForm.File] *)
Fixpoint UploadFiles_fields (uploadDir : string) (renameFile : bool)
    (File : list (string * list (FileHeader P))) (uploadedFiles : list UploadedFile)
  : M (list UploadedFile * error) :=
  match File with
  | [] => ret (uploadedFiles, None)
  | (_, fHeaders) :: rest =>
    res <- UploadFiles_headers uploadDir renameFile fHeaders uploadedFiles ;;
    let '(uploadedFiles, err, returned) := res in
    if returned then ret (uploadedFiles, err)
    else UploadFiles_fields uploadDir renameFile rest uploadedFiles
  end.

Definition UploadFiles (r : Request) (uploadDir : string) (rename : list bool)
  : M (list UploadedFile * error) :=
  let renameFile := rename_flag rename in
  let uploadedFiles : list UploadedFile := [] in
  t <- get_tools ;;
  (if MaxFileSize t =? 0 then set_MaxFileSize (1024 * 1024 * 1024) else ret tt) ;;;
  (* Create the directory if it doesnt exist *)
  err <- CreateDirIfNotExist uploadDir ;;
  if not_nil err then ret ([], err) else
  t <- get_tools ;;
  pf <- call (http_ParseMultipartForm P (req_info r) (Body r) (MaxFileSize t)) ;;
  let '(File, err) := pf in
  if not_nil err then ret ([], errors_New "the uploaded file is too big") else
  UploadFiles_fields uploadDir renameFile File uploadedFiles.

Definition UploadOneFile (r : Request) (uploadDir : string) (rename : list bool)
  : M (option UploadedFile * error) :=
  let renameFile := rename_flag rename in
  res <- UploadFiles r uploadDir [renameFile] ;;
  let '(files, err) := res in
  if not_nil err then ret (None, err) else
  f <- index files 0 ;;
  ret (Some f, None).

(** ** DownloadStaticFile *)

(** The double quote character, as a string. *)
Definition dquote : string := String (ascii_of_nat 34) EmptyString.

(** w.Header().Set(key, value) for a key in canonical form *)
Definition Header_Set (key value : string) (w : ResponseWriter) : ResponseWriter :=
  mkResponseWriter (<[key := [value]]> (rw_header w)) (rw_code w) (rw_body w) (rw_write_err w).

Definition DownloadStaticFile (w : ResponseWriter) (r : Request)
    (p file displayName : string) : M ResponseWriter :=
  let fp := path_Join P p file in
  let w := Header_Set "Content-Disposition"
             ("attachment; filename=" ++ dquote ++ displayName ++ dquote)%string w in
  call (http_ServeFile P w (req_info r) (Body r) fp).

(** ** ReadJSON *)

(** The verb %d of package fmt on an int *)
Definition format_int (n : Z) : string := NilZero.string_of_int (Z.to_int n).

(** strings.HasPrefix and strings.TrimPrefix *)
Definition strings_HasPrefix (s pre : string) : bool := String.prefix pre s.

Definition strings_TrimPrefix (s pre : string) : string :=
  if strings_HasPrefix s pre
  then String.substring (String.length pre) (String.length s - String.length pre) s
  else s.

(** The switch of ReadJSON over the error of the first Decode, the cases
    in the order of the source. *)
Definition classify_decode_error (maxBytes : Z) (err : goerror) : error :=
  match err with
  | SyntaxError _ Offset =>
    errors_New ("body contains badly-formed JSON (at character " ++ format_int Offset ++ ")")%string
  | ErrUnexpectedEOF => errors_New "body contains badly-formed JSON"
  | UnmarshalTypeError _ Field Offset =>
    if negb (String.eqb Field "") then
      errors_New ("body contains incorrect JSON type for field " ++ strconv_Quote P Field)%string
    else
      errors_New ("body contains incorrect JSON type (at character " ++ format_int Offset)%string
  | EOF => errors_New "body must not be empty"
  | _ =>
    if strings_HasPrefix (Error err) "json: unknown field" then
      let fieldName := strings_TrimPrefix (Error err) "json: unknown field" in
      errors_New ("body contains unknown key " ++ fieldName)%string
    else if String.eqb (Error err) "http: request body too large" then
      errors_New ("body must not be larger than " ++ format_int maxBytes ++ " bytes")%string
    else match err with
    | InvalidUnmarshalError _ =>
      errors_New ("error unmarshaling JSON: " ++ Error err)%string
    | _ => Some err
    end
  end.

(** ReadJSON returns the error; the request (whose Body it replaces) and
    the value behind [data] afterwards come with it. *)
Definition ReadJSON (w : ResponseWriter) (r : Request) (data : option (Value P))
  : M (error * Request * option (Value P)) :=
  t <- get_tools ;;
  let maxBytes := 1024 * 1024 in
  let maxBytes := if negb (MaxJSONSize t =? 0) then MaxJSONSize t else maxBytes in
  let r := mkRequest (req_info r) (http_MaxBytesReader P w (Body r) maxBytes) in
  let dec := json_NewDecoder P (Body r) in
  let dec := if negb (AllowUnknownFields t) then DisallowUnknownFields P dec else dec in
  d1 <- call (json_Decode P dec data) ;;
  let '(dec, data, err) := d1 in
  match err with
  | Some e => ret (classify_decode_error maxBytes e, r, data)
  | None =>
    d2 <- call (json_Decode P dec None) ;;
    let '(_, _, err) := d2 in
    if bool_decide (err <> Some EOF) then
      ret (errors_New "body must contain only one JSON value", r, data)
    else ret (None, r, data)
  end.

(** ** WriteJSON and ErrorJSON *)

(** [type JSONResponse struct] *)
Record JSONResponse : Type := mkJSONResponse {
  JError : bool;
  JMessage : string;
  JData : option (Value P)
}.

(** The values passed as [data interface{}]: a caller's value, or the
    envelope that ErrorJSON builds. *)
Inductive any : Type :=
| AnyValue (v : Value P)
| AnyJSONResponse (p : JSONResponse).

Definition Marshal (data : any) : string * error :=
  match data with
  | AnyValue v => json_Marshal P (inr v)
  | AnyJSONResponse p => json_Marshal P (inl (JError p, JMessage p))
  end.

(** w.WriteHeader(status): the method of the writer's implementation; a
    panic in it is a panic of the caller. *)
Definition WriteHeader (status : Z) (w : ResponseWriter) : M ResponseWriter :=
  fun st =>
    let (o, os) := rw_WriteHeader P status w (world st) in (o, mkState (tools st) os).

(** w.Write(out): the method of the writer's implementation. *)
Definition Write (out : string) (w : ResponseWriter) : M (ResponseWriter * error) :=
  call (rw_Write P out w).

Definition WriteJSON (w : ResponseWriter) (status : Z) (data : any) (headers : list Header)
  : M (error * ResponseWriter) :=
  let '(out, err) := Marshal data in
  if not_nil err then ret (err, w) else
  let w :=
    match headers with
    | h :: _ =>
      mkResponseWriter (h ∪ rw_header w) (rw_code w) (rw_body w) (rw_write_err w)
    | [] => w
    end in
  let w := Header_Set "Content-Type" "application/json" w in
  w <- WriteHeader status w ;;
  wr <- Write out w ;;
  let '(w, err) := wr in
  if not_nil err then ret (err, w) else
  ret (None, w).

Definition ErrorJSON (w : ResponseWriter) (err : error) (status : list Z)
  : M (error * ResponseWriter) :=
  let statusCode := 400 (* http.StatusBadRequest *) in
  let statusCode := match status with s :: _ => s | [] => statusCode end in
  match err with
  | None => panic "invalid memory address or nil pointer dereference"
  | Some e =>
    let payload := mkJSONResponse true (Error e) None in
    WriteJSON w statusCode (AnyJSONResponse payload) []
  end.

(** ** PushJSONToRemote *)

Definition PushJSONToRemote (uri : string) (data : any) (client : list (Client P))
  : M (option (Response (BodyRef P)) * Z * error) :=
  (* create json *)
  let '(jsonData, err) := Marshal data in
  if not_nil err then ret (None, 0, err) else
  (* check for custom http client *)
  let httpClient := match client with c :: _ => c | [] => default_Client P end in
  (* build request and set header *)
  let err := http_NewRequest_ok P "Post" uri in
  if not_nil err then ret (None, 0, err) else
  let header : Header := <["Content-Type" := ["application/json"]]> ∅ in
  (* call the remote uri *)
  d <- call (client_Do P httpClient "Post" uri jsonData header) ;;
  let '(response, err) := d in
  if not_nil err then ret (None, 0, err) else
  match response with
  | None => panic "invalid memory address or nil pointer dereference"
  | Some resp =>
    defer (call (body_Close P (resp_body resp))) (
      (* send response back *)
      ret (Some resp, StatusCode resp, None))
  end.

End Toolkit.

(** ** A platform to run the embedding on

    [Sim.platform] is a small executable stand-in for the standard library
    and the operating system, in the manner of the test doubles of the
    repository's tests (httptest recorders, a client with a fixed round
    trip).  It serves to run the methods on concrete inputs. *)

Module Sim.

(** The outside world: primes drawn so far, directories, files with their
    contents, and the response bodies handed out, with those closed. *)
Record sim_os : Type := mkOS {
  drawn : nat;
  dirs : list string;
  files : list (string * list Z);
  bodies : nat;
  closed : list nat
}.

Definition init : sim_os := mkOS 0 [] [] 0 [].

(** The ten largest primes below 2^64; the source hands them out in turn. *)
Definition prime_table : list Z :=
  [2 ^ 64 - 59; 2 ^ 64 - 83; 2 ^ 64 - 95; 2 ^ 64 - 179; 2 ^ 64 - 189;
   2 ^ 64 - 257; 2 ^ 64 - 279; 2 ^ 64 - 323; 2 ^ 64 - 353; 2 ^ 64 - 363].

Definition Prime (bits : Z) (o : sim_os) : Z * sim_os :=
  (nth (drawn o mod 10)%nat prime_table (2 ^ 64 - 59),
   mkOS (S (drawn o)) (dirs o) (files o) (bodies o) (closed o)).

Definition not_exist : goerror := ErrorString "file does not exist".

Definition has_file (path : string) (o : sim_os) : bool :=
  existsb (fun f => String.eqb (fst f) path) (files o).

Definition Stat (path : string) (o : sim_os) : error * sim_os :=
  if existsb (String.eqb path) (dirs o) || has_file path o then (None, o)
  else (Some not_exist, o).

Definition IsNotExist (e : error) : bool := bool_decide (e = Some not_exist).

(** Directories cannot be made under /proc. *)
Definition MkdirAll (path : string) (mode : Z) (o : sim_os) : error * sim_os :=
  if String.prefix "/proc" path then (errors_New "mkdir: permission denied", o)
  else (None, mkOS (drawn o) (path :: dirs o) (files o) (bodies o) (closed o)).

Definition put_file (path : string) (data : list Z) (o : sim_os) : sim_os :=
  mkOS (drawn o) (dirs o) ((path, data) :: files o) (bodies o) (closed o).

(** A file named by the empty path cannot be created. *)
Definition Create (path : string) (o : sim_os) : (option string * error) * sim_os :=
  if String.eqb path "" then ((None, errors_New "open : no such file or directory"), o)
  else ((Some path, None), put_file path [] o).

(** A part of a multipart form: its file name and its data. *)
Record part : Type := mkPart { part_name : string; part_data : list Z }.

Definition Copy (dst : option string) (src : part) (o : sim_os) : (Z * error) * sim_os :=
  match dst with
  | None => ((0, errors_New "invalid argument"), o)
  | Some path => ((Z.of_nat (length (part_data src)), None), put_file path (part_data src) o)
  end.

Definition Close_osfile (f : option string) (o : sim_os) : error * sim_os :=
  match f with
  | None => (errors_New "invalid argument", o)
  | Some _ => (None, o)
  end.

(** Read fills the front of the buffer with the data there is; at the end
    of the data it returns io.EOF. *)
Definition Read (f : part) (buff : list Z) (o : sim_os) : (list Z * Z * error) * sim_os :=
  match part_data f with
  | [] => ((buff, 0, Some EOF), o)
  | _ =>
    let got := take (length buff) (part_data f) in
    (((got ++ drop (length got) buff)%list, Z.of_nat (length got), None), o)
  end.

(** Content sniffing, reduced to the PNG signature and the test for
    binary data. *)
Definition DetectContentType (data : list Z) : string :=
  if bool_decide (take 8 data = [137; 80; 78; 71; 13; 10; 26; 10]) then "image/png"
  else if existsb (fun b => b <? 9) data then "application/octet-stream"
  else "text/plain; charset=utf-8".

Definition lower_byte (b : Z) : Z := if (65 <=? b) && (b <=? 90) then b + 32 else b.

Definition EqualFold (s t : string) : bool :=
  bool_decide (map lower_byte (bytes s) = map lower_byte (bytes t)).

(** The extension: from the last dot of the last path element on. *)
Fixpoint ext_of (bs : list Z) : option (list Z) :=
  match bs with
  | [] => None
  | b :: t =>
    match ext_of t with
    | Some e => Some e
    | None => if existsb (Z.eqb 47) t then None
              else if b =? 46 then Some bs else None
    end
  end.

Definition Ext (path : string) : string :=
  match ext_of (bytes path) with
  | Some e => string_of_bytes e
  | None => ""
  end.

Definition Join (a b : string) : string := (a ++ "/" ++ b)%string.

(** A request body is the list of the JSON documents in it, with the
    limit a MaxBytesReader has put on it. *)
Record body : Type := mkBody { docs : list string; limit : option Z }.

Record decoder : Type := mkDecoder { input : body; read : Z; strict : bool }.

(** Decode takes the next document; reading past the limit of the body
    is the error of the MaxBytesReader. *)
Definition Decode (d : decoder) (target : option string) (o : sim_os)
  : (decoder * option string * error) * sim_os :=
  match docs (input d) with
  | [] => ((d, target, Some EOF), o)
  | doc :: rest =>
    let n := read d + len_string doc in
    match limit (input d) with
    | Some l =>
      if l <? n then ((d, target, errors_New "http: request body too large"), o)
      else ((mkDecoder (mkBody rest (limit (input d))) n (strict d), Some doc, None), o)
    | None => ((mkDecoder (mkBody rest (limit (input d))) n (strict d), Some doc, None), o)
    end
  end.

Definition quote (s : string) : string :=
  (String (ascii_of_nat 34) EmptyString ++ s ++ String (ascii_of_nat 34) EmptyString)%string.

(** A caller's value is kept as its JSON text. *)
Definition Marshal (v : (bool * string) + string) : string * error :=
  match v with
  | inr text => (text, None)
  | inl (e, msg) =>
    (("{" ++ quote "error" ++ ":" ++ (if e then "true" else "false") ++ ","
          ++ quote "message" ++ ":" ++ quote msg ++ "}")%string, None)
  end.

Definition ServeFile (w : ResponseWriter) (info : list (string * list part)) (b : body)
    (name : string) (o : sim_os) : ResponseWriter * sim_os :=
  match find (fun f => String.eqb (fst f) name) (files o) with
  | Some f => (mkResponseWriter (rw_header w) (Some 200)
                 (rw_body w ++ string_of_bytes (snd f))%string (rw_write_err w), o)
  | None => (mkResponseWriter (rw_header w) (Some 404) (rw_body w) (rw_write_err w), o)
  end.

(** The writer's methods, in the manner of the response of net/http.
    WriteHeader does nothing on a writer whose status has been written; on
    a new one a status outside 100..999 panics. *)
Definition WriteHeader (status : Z) (w : ResponseWriter) (o : sim_os)
  : outcome ResponseWriter * sim_os :=
  match rw_code w with
  | Some _ => (Ret w, o)
  | None =>
    if (status <? 100) || (999 <? status) then (Panic "invalid WriteHeader code", o)
    else (Ret (mkResponseWriter (rw_header w) (Some status) (rw_body w) (rw_write_err w)), o)
  end.

(** The statuses that allow a body: all but 1xx, 204 and 304. *)
Definition bodyAllowedForStatus (status : Z) : bool :=
  negb (((100 <=? status) && (status <=? 199)) || (status =? 204) || (status =? 304)).

(** Write writes status 200 first when none was written; it writes nothing
    and returns http.ErrBodyNotAllowed when the status allows no body, and
    the error of the connection when that is broken. *)
Definition Write (out : string) (w : ResponseWriter) (o : sim_os)
  : (ResponseWriter * error) * sim_os :=
  let code := match rw_code w with Some c => c | None => 200 end in
  let w := mkResponseWriter (rw_header w) (Some code) (rw_body w) (rw_write_err w) in
  if String.eqb out "" then ((w, None), o)
  else if negb (bodyAllowedForStatus code) then
    ((w, errors_New "http: request method or response status code does not allow body"), o)
  else match rw_write_err w with
       | Some e => ((w, Some e), o)
       | None =>
         ((mkResponseWriter (rw_header w) (Some code) (rw_body w ++ out)%string None, None), o)
       end.

(** The client answers 200 with a new, open body; the empty URI fails. *)
Definition Do (c : unit) (method uri payload : string) (h : Header) (o : sim_os)
  : (option (Response nat) * error) * sim_os :=
  if String.eqb uri "" then ((None, errors_New "Post: unsupported protocol scheme"), o)
  else ((Some (mkResponse 200 (bodies o)), None),
        mkOS (drawn o) (dirs o) (files o) (S (bodies o)) (closed o)).

Definition Close_body (b : nat) (o : sim_os) : error * sim_os :=
  (None, mkOS (drawn o) (dirs o) (files o) (bodies o) (b :: closed o)).

Definition is_closed (b : nat) (o : sim_os) : bool := existsb (Nat.eqb b) (closed o).

Definition platform : Platform := {|
  OS := sim_os;
  Value := string;
  Reader := body;
  Decoder := decoder;
  Client := unit;
  FileHeader := part;
  MultipartFile := part;
  OsFile := string;
  BodyRef := nat;
  RequestInfo := list (string * list part);
  rand_Prime := Prime;
  os_Stat := Stat;
  os_IsNotExist := IsNotExist;
  os_MkdirAll := MkdirAll;
  os_Create := Create;
  osfile_Close := Close_osfile;
  io_Copy := Copy;
  filepath_Ext := Ext;
  filepath_Join := Join;
  path_Join := Join;
  http_ParseMultipartForm := fun info _ _ o => ((info, None), o);
  hdr_Filename := part_name;
  hdr_Open := fun h o => ((h, None), o);
  file_Read := Read;
  file_Seek := fun _ _ _ o => ((0, None), o);
  file_Close := fun _ o => (None, o);
  http_DetectContentType := DetectContentType;
  strings_EqualFold := EqualFold;
  unicode_To_LowerCase := fun r => r;
  http_ServeFile := ServeFile;
  rw_WriteHeader := WriteHeader;
  rw_Write := Write;
  http_MaxBytesReader := fun _ b n => mkBody (docs b) (Some (Z.max 0 n));
  json_NewDecoder := fun b => mkDecoder b 0 false;
  DisallowUnknownFields := fun d => mkDecoder (input d) (read d) true;
  json_Decode := Decode;
  strconv_Quote := quote;
  json_Marshal := Marshal;
  http_NewRequest_ok := fun _ _ => None;
  default_Client := tt;
  client_Do := Do;
  body_Close := Close_body;
  body_closed := is_closed
|}.

(** The platform has no case pairs above U+007F, its multipart parts
    always open, and its request parser hands back the form it is given. *)

(** A receiver with every field zero, as [var testTools Tools] gives. *)
Definition zero_tools : Tools := mkTools 0 [] 0 false.

Definition start (t : Tools) : State platform := mkState platform t init.

End Sim.

(** ** The same platform with failures

    [SimFaulty.platform] is [Sim.platform] except for two calls: its
    request parser fails on a request without a form (a body that is not
    multipart), and its json.Marshal fails on a value with no text. *)

Module SimFaulty.

Definition ParseMultipartForm (info : list (string * list Sim.part)) (b : Sim.body)
    (maxMemory : Z) (o : Sim.sim_os)
  : (list (string * list Sim.part) * error) * Sim.sim_os :=
  match info with
  | [] => (([], errors_New "request Content-Type isn't multipart/form-data"), o)
  | _ => ((info, None), o)
  end.

Definition Marshal (v : (bool * string) + string) : string * error :=
  match v with
  | inr "" => ("", errors_New "json: unsupported value")
  | _ => Sim.Marshal v
  end.

Definition platform : Platform := {|
  OS := Sim.sim_os;
  Value := string;
  Reader := Sim.body;
  Decoder := Sim.decoder;
  Client := unit;
  FileHeader := Sim.part;
  MultipartFile := Sim.part;
  OsFile := string;
  BodyRef := nat;
  RequestInfo := list (string * list Sim.part);
  rand_Prime := Sim.Prime;
  os_Stat := Sim.Stat;
  os_IsNotExist := Sim.IsNotExist;
  os_MkdirAll := Sim.MkdirAll;
  os_Create := Sim.Create;
  osfile_Close := Sim.Close_osfile;
  io_Copy := Sim.Copy;
  filepath_Ext := Sim.Ext;
  filepath_Join := Sim.Join;
  path_Join := Sim.Join;
  http_ParseMultipartForm := ParseMultipartForm;
  hdr_Filename := Sim.part_name;
  hdr_Open := fun h o => ((h, None), o);
  file_Read := Sim.Read;
  file_Seek := fun _ _ _ o => ((0, None), o);
  file_Close := fun _ o => (None, o);
  http_DetectContentType := Sim.DetectContentType;
  strings_EqualFold := Sim.EqualFold;
  unicode_To_LowerCase := fun r => r;
  http_ServeFile := Sim.ServeFile;
  rw_WriteHeader := Sim.WriteHeader;
  rw_Write := Sim.Write;
  http_MaxBytesReader := fun _ b n => Sim.mkBody (Sim.docs b) (Some (Z.max 0 n));
  json_NewDecoder := fun b => Sim.mkDecoder b 0 false;
  DisallowUnknownFields := fun d => Sim.mkDecoder (Sim.input d) (Sim.read d) true;
  json_Decode := Sim.Decode;
  strconv_Quote := Sim.quote;
  json_Marshal := Marshal;
  http_NewRequest_ok := fun _ _ => None;
  default_Client := tt;
  client_Do := Sim.Do;
  body_Close := Sim.Close_body;
  body_closed := Sim.is_closed
|}.

Definition start (t : Tools) : State platform := mkState platform t Sim.init.

End SimFaulty.

(** * Specifications and proofs *)

(** The alphabet as runes: [[]rune(randomStringSource)]. *)
Definition source_runes : list rune := Eval vm_compute in Utf8.runes randomStringSource.

Section Properties.

Context (P : Platform).

(** ** Definitions used in the statements *)

(** *** RandomString *)

(** A rune that some state of the random source makes the loop body pick:
    the alphabet at the index [p.Uint64() % 64] of the prime [p] drawn there. *)
Definition drawn_char (c : rune) : Prop :=
  exists w, Utf8.runes randomStringSource
            !! Z.to_nat (Uint64 (fst (rand_Prime P 64 w)) mod 64) = Some c.

(** What crypto/rand.Prime promises for 64 bits, as far as RandomString
    depends on it: a number of bit length 64 that is odd.  The library sets
    the low bit of every candidate, and every prime of that size is odd
    (lemma [prime_64_bits_odd]). *)
Definition Prime64_contract : Prop :=
  forall w : OS P,
    let p := fst (rand_Prime P 64 w) in
    2 ^ 63 <= p < 2 ^ 64 /\ Z.odd p = true.

(** The characters of the alphabet at the odd indices 1, 3, ..., 63. *)
Definition reachable_alphabet : string := "bdfhjlnprtvxzBDFHJLNPRTVXZ13579+".

(** The check that every odd index of the alphabet holds a character of
    [reachable_alphabet]. *)
Definition odd_index_ok : bool :=
  forallb (fun j => implb (Nat.odd j)
     (existsb (Ascii.eqb (ascii_of_byte (nth j source_runes 0)))
              (list_ascii_of_string reachable_alphabet)))
    (seq 0 64).

(** *** Slugify, in the words of the specification *)

(** The maximal runs of a text: blocks of neighbouring characters that are
    all inside [a-z0-9] (flag true) or all outside it (flag false). *)
Fixpoint runs (rs : list rune) : list (bool * list rune) :=
  match rs with
  | [] => []
  | r :: t =>
    match runs t with
    | (b, blk) :: rest =>
      if Bool.eqb b (in_class r) then (b, r :: blk) :: rest
      else (in_class r, [r]) :: (b, blk) :: rest
    | [] => [(in_class r, [r])]
    end
  end.

(** Every run outside [a-z0-9] replaced by a single hyphen. *)
Definition hyphenate (blocks : list (bool * list rune)) : list rune :=
  flat_map (fun blk : bool * list rune => if fst blk then snd blk else [45]) blocks.

(** The text with every run of one or more characters outside [a-z0-9]
    collapsed into one hyphen. *)
Definition collapse_runs (rs : list rune) : list rune := hyphenate (runs rs).

(** Leading and trailing hyphens trimmed. *)
Fixpoint strip_leading (cs : list rune) : list rune :=
  match cs with
  | c :: t => if c =? 45 then strip_leading t else cs
  | [] => []
  end.

Definition strip_trailing (cs : list rune) : list rune := rev (strip_leading (rev cs)).

(** The three results the specification gives: the empty-input condition,
    the empty-result condition, or the slug. *)
Inductive slug_result : Type :=
| EmptyInput
| EmptyResult
| Slug (t : string).

(** Lower-case the text, collapse the runs, trim the hyphens. *)
Definition Slugify_spec (s : string) : slug_result :=
  if decide (s = "") then EmptyInput
  else
    let t := strip_trailing (strip_leading
               (collapse_runs (Utf8.runes (strings_ToLower P s)))) in
    match t with
    | [] => EmptyResult
    | _ => Slug (Utf8.string_of_runes t)
    end.

(** How Slugify reports each result. *)
Definition slug_return (res : slug_result) : string * error :=
  match res with
  | EmptyInput => ("", errors_New "empty string not permitted")
  | EmptyResult => ("", errors_New "after removing unsafe characters, slug is zero length")
  | Slug t => (t, None)
  end.

(** unicode.ToLower without the case tables *)
Definition ascii_ToLower (r : rune) : rune :=
  if (65 <=? r) && (r <=? 90) then r + (97 - 65) else r.

(** ASCII, or in U+3000..U+9FFF (kana and CJK ideographs, which have no
    case). *)
Definition caseless (r : rune) : bool := (r <=? 0x7F) || ((0x3000 <=? r) && (r <=? 0x9FFF)).

(** *** The receiver *)

(** A computation keeps the receiver when the struct behind [t] is the
    same after it as before, whatever the outcome. *)
Definition keeps_tools {A} (m : M P A) : Prop :=
  forall st, tools P (snd (m st)) = tools P st.

(** The lazy default of lines 74-76 of tools.go. *)
Definition default_MaxFileSize (t : Tools) : Tools :=
  if MaxFileSize t =? 0
  then mkTools (1024 * 1024 * 1024) (AllowedFileTypes t) (MaxJSONSize t) (AllowUnknownFields t)
  else t.

(** *** ReadJSON and PushJSONToRemote *)

(** The limit ReadJSON puts on the body, the limited body, and the decoder
    it reads with. *)
Definition json_limit (t : Tools) : Z :=
  if MaxJSONSize t =? 0 then 1048576 else MaxJSONSize t.

Definition json_body (t : Tools) (w : ResponseWriter) (r : Request P) : Reader P :=
  http_MaxBytesReader P w (Body P r) (json_limit t).

Definition json_decoder (t : Tools) (w : ResponseWriter) (r : Request P) : Decoder P :=
  let dec := json_NewDecoder P (json_body t w r) in
  if AllowUnknownFields t then dec else DisallowUnknownFields P dec.

(** Closing a response body leaves it closed. *)
Definition body_Close_closes : Prop :=
  forall (b : BodyRef P) (w : OS P), body_closed P b (snd (body_Close P b w)) = true.

(** *** Further properties *)

(** The characters a slug is made of: [a-z0-9] and the hyphen. *)
Definition slug_char (b : Z) : bool := in_class b || (b =? 45).

(** No two hyphens next to each other. *)
Fixpoint no_double_hyphen (bs : list Z) : Prop :=
  match bs with
  | a :: t =>
    match t with
    | b :: _ => ~ (a = 45 /\ b = 45)
    | [] => True
    end /\ no_double_hyphen t
  | [] => True
  end.

(** The shape of a slug: not empty, of slug characters only, with no
    hyphen at either end and no two hyphens in a row. *)
Definition slug_shaped (bs : list Z) : Prop :=
  bs <> []
  /\ Forall (fun b => slug_char b = true) bs
  /\ head bs <> Some 45
  /\ last bs <> Some 45
  /\ no_double_hyphen bs.

(** What the file system promises to CreateDirIfNotExist: a path that
    MkdirAll has made, or that Stat has found, is found by the next Stat. *)
Definition dir_contract : Prop :=
  (forall path mode (w w' : OS P),
     os_MkdirAll P path mode w = (None, w') ->
     os_IsNotExist P (fst (os_Stat P path w')) = false)
  /\ (forall path (w : OS P),
        os_IsNotExist P (fst (os_Stat P path w)) = false ->
        os_IsNotExist P (fst (os_Stat P path (snd (os_Stat P path w)))) = false).

(** The record UploadFiles makes for a file header: the original name is
    that of the header; the new name is the same, or with renaming 25
    random characters followed by the extension of the original name. *)
Definition stored_as (renameFile : bool) (hdr : FileHeader P) (f : UploadedFile) : Prop :=
  OriginalFileName f = hdr_Filename P hdr
  /\ if renameFile
     then exists rs, NewFileName f = (rs ++ filepath_Ext P (hdr_Filename P hdr))%string
                     /\ len_string rs = 25
     else NewFileName f = hdr_Filename P hdr.

(** ** RandomString: length and alphabet *)

Lemma source_runes_eq : Utf8.runes randomStringSource = source_runes.
Proof. vm_compute. reflexivity. Qed.

Lemma RandomString_loop_total (idx : list nat) :
  forall (s : list rune) (st : State P),
  exists s' st',
    RandomString_loop P (Utf8.runes randomStringSource) idx s st = (Ret s', st')
    /\ tools P st' = tools P st
    /\ length s' = length s
    /\ forall (k : nat) (c : rune), s' !! k = Some c ->
         drawn_char c \/ ((k ∉ idx) /\ s !! k = Some c).
Proof.
  induction idx as [|i idx IH]; intros s st.
  - exists s, st. simpl. unfold ret. repeat split; auto.
    intros k c H. right. split; [apply not_elem_of_nil | exact H].
  - simpl. rewrite source_runes_eq.
    unfold bind at 1. unfold call at 1.
    change (len source_runes) with 64.
    destruct (rand_Prime P 64 (world P st)) as [p w'] eqn:Hp.
    cbn [fst snd].
    set (j := Uint64 p mod 64).
    assert (Hj : 0 <= j < 64) by (apply Z.mod_pos_bound; lia).
    unfold bind at 1. unfold rem_uint64. simpl (64 =? 0). cbv iota.
    unfold ret at 1. unfold bind at 1. unfold index.
    fold j.
    destruct (j <? 0) eqn:Hneg; [lia|].
    destruct (source_runes !! Z.to_nat j) as [c|] eqn:Hc.
    2:{ apply lookup_ge_None in Hc. change (length source_runes) with 64%nat in Hc. lia. }
    unfold ret at 1.
    rewrite <- source_runes_eq.
    destruct (IH (<[i:=c]> s) (mkState P (tools P st) w')) as (s' & st' & Hrun & Ht & Hlen & Hk).
    exists s', st'. split; [exact Hrun|]. split; [exact Ht|].
    split; [rewrite Hlen; apply length_insert|].
    intros k c' Hs'. destruct (Hk k c' Hs') as [Hd | [Hni Hins]]; [left; exact Hd|].
    destruct (decide (k = i)) as [->|Hne].
    + left. exists (world P st). rewrite Hp. cbn [fst]. fold j.
      rewrite source_runes_eq, Hc. f_equal.
      destruct (decide (i < length s)%nat) as [Hlt|Hge].
      * rewrite list_lookup_insert_eq in Hins by exact Hlt. congruence.
      * rewrite list_insert_ge in Hins by lia. apply lookup_lt_Some in Hins. lia.
    + right. split.
      * rewrite not_elem_of_cons. auto.
      * rewrite list_lookup_insert_ne in Hins by auto. exact Hins.
Qed.

Lemma prime_64_bits_odd (p : Z) : Z.prime p -> 2 ^ 63 <= p -> Z.odd p = true.
Proof.
  intros Hp Hge. destruct (Z.odd p) eqn:Ho; [reflexivity|exfalso].
  rewrite <- Z.negb_even in Ho. apply negb_false_iff in Ho.
  apply Z.even_spec in Ho. destruct Ho as [k Hk].
  assert (Hd : (2 | p)) by (exists k; lia).
  destruct (Z.divide_prime_r 2 p Hp Hd) as [H|[H|[H|H]]]; lia.
Qed.

Lemma encode_rune_ascii (c : rune) : 0 <= c <= 127 -> Utf8.encode_rune c = [c].
Proof.
  intros H. unfold Utf8.encode_rune.
  replace (0 <=? c) with true by (symmetry; apply Z.leb_le; lia).
  replace (c <=? 127) with true by (symmetry; apply Z.leb_le; lia).
  reflexivity.
Qed.

Lemma string_of_runes_ascii (l : list rune) :
  Forall (fun c => 0 <= c <= 127) l -> Utf8.string_of_runes l = string_of_bytes l.
Proof.
  intros H. unfold Utf8.string_of_runes. f_equal.
  induction H as [|c l Hc _ IH]; [reflexivity|].
  simpl. rewrite encode_rune_ascii by exact Hc. simpl. f_equal. exact IH.
Qed.

Lemma length_string_of_bytes (l : list Z) :
  String.length (string_of_bytes l) = length l.
Proof.
  unfold string_of_bytes. induction l as [|b l IH]; [reflexivity|].
  simpl. f_equal. exact IH.
Qed.

Lemma list_ascii_of_string_of_bytes (l : list Z) :
  list_ascii_of_string (string_of_bytes l) = map ascii_of_byte l.
Proof. unfold string_of_bytes. apply list_ascii_of_string_of_list_ascii. Qed.

Lemma drawn_char_source (c : rune) : drawn_char c -> In c source_runes.
Proof.
  intros [w Hw]. rewrite source_runes_eq in Hw.
  apply list_elem_of_lookup_2 in Hw. apply list_elem_of_In. exact Hw.
Qed.

Lemma source_runes_ascii (c : rune) : In c source_runes -> 0 <= c <= 127.
Proof.
  assert (H : Forall (fun c => 0 <= c <= 127) source_runes).
  { unfold source_runes. repeat constructor; lia. }
  rewrite Forall_forall in H. intros Hin. apply H. apply list_elem_of_In. exact Hin.
Qed.

(** Running RandomString: it returns, the receiver is untouched, and every
    rune of the slice was drawn. *)
Lemma RandomString_run (n : Z) (st : State P) :
  0 <= n ->
  exists (s : list rune) (st' : State P),
    RandomString P n st = (Ret (Utf8.string_of_runes s), st')
    /\ tools P st' = tools P st
    /\ length s = Z.to_nat n
    /\ Forall drawn_char s.
Proof.
  intros Hn. unfold RandomString, make_runes.
  destruct (n <? 0) eqn:Hneg; [lia|].
  unfold bind at 1. unfold ret at 1. unfold bind at 1. cbv zeta.
  match goal with
  | |- context [RandomString_loop P _ ?i ?s ?st] =>
    destruct (RandomString_loop_total i s st) as (s' & st' & Hrun & Ht & Hlen & Hk)
  end.
  exists s', st'. rewrite Hrun. unfold ret.
  split; [reflexivity|]. split; [exact Ht|].
  split; [rewrite Hlen; apply length_replicate|].
  apply Forall_lookup. intros k c Hc.
  destruct (Hk k c Hc) as [Hd|[Hni _]]; [exact Hd|].
  exfalso. apply Hni. apply elem_of_seq. apply lookup_lt_Some in Hc. lia.
Qed.

(** C4: for every n >= 0, RandomString(n) returns, and the string it returns
    has length exactly n. *)
Theorem RandomString_length (n : Z) (st : State P) :
  0 <= n ->
  exists (s : string) (st' : State P),
    RandomString P n st = (Ret s, st') /\ len_string s = n.
Proof.
  intros Hn. destruct (RandomString_run n st Hn) as (s & st' & Hrun & _ & Hlen & Hd).
  exists (Utf8.string_of_runes s), st'. split; [exact Hrun|].
  rewrite string_of_runes_ascii.
  - unfold len_string, rune in *. rewrite length_string_of_bytes, Hlen. lia.
  - eapply Forall_impl; [exact Hd|]. intros c Hc.
    apply source_runes_ascii, drawn_char_source, Hc.
Qed.

Lemma drawn_char_reachable (c : rune) :
  Prime64_contract -> drawn_char c ->
  In (ascii_of_byte c) (list_ascii_of_string reachable_alphabet).
Proof.
  intros HP [w Hw]. destruct (HP w) as [Hrange Hodd].
  set (p := fst (rand_Prime P 64 w)) in *.
  rewrite source_runes_eq in Hw.
  assert (Hu : Uint64 p = p).
  { unfold Uint64. rewrite Z.abs_eq by lia. apply Z.mod_small. lia. }
  rewrite Hu in Hw.
  assert (Hj : 0 <= p mod 64 < 64) by (apply Z.mod_pos_bound; lia).
  assert (Hjo : Z.odd (p mod 64) = true).
  { rewrite (Z.div_mod p 64) in Hodd by lia.
    rewrite Z.add_comm, Z.odd_add_mul_even in Hodd; [exact Hodd|].
    exists 32; reflexivity. }
  set (j := Z.to_nat (p mod 64)) in *.
  assert (Hck : odd_index_ok = true) by (vm_compute; reflexivity).
  unfold odd_index_ok in Hck. rewrite forallb_forall in Hck.
  assert (Hin : In j (seq 0 64)) by (apply in_seq; lia).
  specialize (Hck j Hin).
  assert (Hno : Nat.odd j = true).
  { unfold j. rewrite <- (Z2Nat.id (p mod 64)) in Hjo by lia.
    rewrite <- Hjo. clear. generalize (Z.to_nat (p mod 64)). intros m.
    destruct (Nat.odd m) eqn:E.
    - symmetry. apply Z.odd_spec. apply Nat.odd_spec in E. destruct E as [k ->].
      exists (Z.of_nat k). lia.
    - symmetry. rewrite <- Z.negb_even. apply negb_false_iff. apply Z.even_spec.
      rewrite <- Nat.negb_even in E. apply negb_false_iff in E.
      apply Nat.even_spec in E. destruct E as [k ->]. exists (Z.of_nat k). lia. }
  rewrite Hno, Bool.implb_true_l in Hck.
  apply existsb_exists in Hck. destruct Hck as (a & Ha & Heq).
  apply Ascii.eqb_eq in Heq.
  rewrite (nth_lookup_Some _ _ _ _ Hw) in Heq. rewrite Heq. exact Ha.
Qed.

(** C3 (the code against the claim): on a source that keeps the contract
    of rand.Prime, every character RandomString produces is one of the 32
    characters at the odd indices of the alphabet; the character a, at
    index 0, never occurs.  So the characters are not drawn from the full
    alphabet of 64. *)
Theorem RandomString_half_alphabet (n : Z) (st st' : State P) (s : string) :
  Prime64_contract ->
  RandomString P n st = (Ret s, st') ->
  (forall c, In c (list_ascii_of_string s) ->
             In c (list_ascii_of_string reachable_alphabet))
  /\ ~ In "a"%char (list_ascii_of_string s).
Proof.
  intros HP Hrun.
  assert (Hn : 0 <= n).
  { destruct (n <? 0) eqn:E; [|lia]. unfold RandomString, make_runes in Hrun.
    rewrite E in Hrun. discriminate. }
  destruct (RandomString_run n st Hn) as (rs & st2 & Hrun2 & _ & _ & Hd).
  rewrite Hrun2 in Hrun. injection Hrun as <- _.
  assert (Hall : forall c, In c (list_ascii_of_string (Utf8.string_of_runes rs)) ->
             In c (list_ascii_of_string reachable_alphabet)).
  { intros c Hc. rewrite string_of_runes_ascii in Hc.
    - rewrite list_ascii_of_string_of_bytes in Hc. apply in_map_iff in Hc.
      destruct Hc as (b & <- & Hb). apply drawn_char_reachable; [exact HP|].
      rewrite Forall_forall in Hd. apply Hd. apply list_elem_of_In. exact Hb.
    - eapply Forall_impl; [exact Hd|]. intros c0 Hc0.
      apply source_runes_ascii, drawn_char_source, Hc0. }
  split; [exact Hall|].
  intros Ha. apply Hall in Ha. vm_compute in Ha.
  repeat (destruct Ha as [Ha|Ha]; [discriminate Ha|]). exact Ha.
Qed.


(** ** Slugify against its specification *)

(** The runs partition the text. *)
Lemma runs_concat (rs : list rune) : flat_map snd (runs rs) = rs.
Proof.
  induction rs as [|r t IH]; [reflexivity|]. simpl.
  destruct (runs t) as [|[b blk] rest]; simpl in *.
  - congruence.
  - destruct (Bool.eqb b (in_class r)); simpl; congruence.
Qed.

Lemma replace_from_runs (rs : list rune) :
  replace_from false rs = collapse_runs rs
  /\ replace_from true rs =
       match runs rs with
       | (false, _) :: rest => hyphenate rest
       | blocks => hyphenate blocks
       end.
Proof.
  unfold collapse_runs.
  induction rs as [|r t [IH1 IH2]]; [split; reflexivity|].
  simpl. destruct (in_class r) eqn:Hr.
  - rewrite IH1. destruct (runs t) as [|[[] blk] rest]; simpl; split; reflexivity.
  - rewrite IH2. destruct (runs t) as [|[[] blk] rest]; simpl; split; reflexivity.
Qed.

Lemma replace_from_ascii (b : bool) (rs : list rune) :
  Forall (fun c => 0 <= c <= 127) (replace_from b rs).
Proof.
  revert b. induction rs as [|r t IH]; intros b; simpl; [constructor|].
  destruct (in_class r) eqn:Hr.
  - constructor; [|apply IH]. unfold in_class in Hr. lia.
  - destruct b; [apply IH|]. constructor; [lia|apply IH].
Qed.

Lemma trimLeftByte_app (l1 l2 : list Z) (c : Z) :
  trimLeftByte (l1 ++ l2) c =
  match trimLeftByte l1 c with
  | [] => trimLeftByte l2 c
  | l => (l ++ l2)%list
  end.
Proof.
  induction l1 as [|b t IH]; simpl; [reflexivity|].
  destruct (b =? c); [exact IH|reflexivity].
Qed.

Lemma trimRightByte_rev (l : list Z) (c : Z) :
  trimRightByte l c = rev (trimLeftByte (rev l) c).
Proof.
  induction l as [|b t IH]; [reflexivity|].
  simpl. rewrite trimLeftByte_app, IH.
  destruct (trimLeftByte (rev t) c) as [|x l'] eqn:E; simpl.
  - destruct (b =? c); reflexivity.
  - rewrite rev_app_distr. simpl.
    destruct (rev l' ++ [x])%list eqn:E2; [|reflexivity].
    destruct (rev l'); discriminate.
Qed.

Lemma trim_commute (l : list Z) (c : Z) :
  trimLeftByte (trimRightByte l c) c = trimRightByte (trimLeftByte l c) c.
Proof.
  induction l as [|b t IH]; [reflexivity|].
  assert (HR : trimRightByte (b :: t) c =
               match trimRightByte t c with
               | [] => if b =? c then [] else [b]
               | t' => b :: t'
               end) by reflexivity.
  change (trimLeftByte (b :: t) c) with (if b =? c then trimLeftByte t c else b :: t).
  destruct (b =? c) eqn:Hb.
  - rewrite HR, <- IH. destruct (trimRightByte t c) eqn:E; [reflexivity|].
    cbn [trimLeftByte]. rewrite Hb. reflexivity.
  - rewrite HR. destruct (trimRightByte t c); cbn [trimLeftByte]; rewrite Hb; reflexivity.
Qed.

Lemma strip_leading_trim (l : list Z) : strip_leading l = trimLeftByte l 45.
Proof. induction l as [|b t IH]; simpl; [reflexivity|]. rewrite IH. reflexivity. Qed.

Lemma trimLeftByte_Forall (Q : Z -> Prop) (l : list Z) (c : Z) :
  Forall Q l -> Forall Q (trimLeftByte l c).
Proof.
  induction 1 as [|b t Hb Ht IH]; simpl; [constructor|].
  destruct (b =? c); [exact IH|constructor; assumption].
Qed.

Lemma trimRightByte_Forall (Q : Z -> Prop) (l : list Z) (c : Z) :
  Forall Q l -> Forall Q (trimRightByte l c).
Proof.
  intros H. rewrite trimRightByte_rev.
  apply Forall_rev, trimLeftByte_Forall, Forall_rev, H.
Qed.

Lemma byte_ascii_roundtrip (b : Z) : 0 <= b < 256 -> byte_of_ascii (ascii_of_byte b) = b.
Proof.
  intros H. unfold byte_of_ascii, ascii_of_byte.
  rewrite N_ascii_embedding by lia. lia.
Qed.

Lemma bytes_string_of_bytes (l : list Z) :
  Forall (fun b => 0 <= b < 256) l -> bytes (string_of_bytes l) = l.
Proof.
  intros H. unfold bytes, string_of_bytes.
  rewrite list_ascii_of_string_of_list_ascii.
  induction H as [|b t Hb _ IH]; [reflexivity|].
  simpl. rewrite byte_ascii_roundtrip by exact Hb. f_equal. exact IH.
Qed.

Lemma Slugify_spec_eq (s : string) (st : State P) :
  Slugify P s st = (Ret (slug_return (Slugify_spec s)), st).
Proof.
  unfold Slugify, Slugify_spec.
  destruct (String.eqb_spec s "") as [->|Hne].
  - reflexivity.
  - destruct (decide (s = "")) as [->|_]; [contradiction|].
    cbv zeta. unfold strings_Trim_byte, ReplaceAllString.
    set (X := replace_from false (Utf8.runes (strings_ToLower P s))).
    assert (HX : Forall (fun c => 0 <= c <= 127) X) by apply replace_from_ascii.
    rewrite (string_of_runes_ascii X HX).
    rewrite bytes_string_of_bytes
      by (eapply Forall_impl; [exact HX|]; simpl; intros; lia).
    destruct (replace_from_runs (Utf8.runes (strings_ToLower P s))) as [<- _].
    fold X. unfold strip_trailing.
    rewrite !strip_leading_trim, <- trimRightByte_rev, <- trim_commute.
    set (Y := trimLeftByte (trimRightByte X 45) 45).
    assert (HY : Forall (fun c => 0 <= c <= 127) Y)
      by apply trimLeftByte_Forall, trimRightByte_Forall, HX.
    unfold len_string. rewrite length_string_of_bytes.
    destruct Y as [|y Y'] eqn:EY; [reflexivity|].
    simpl (Z.of_nat _ =? 0). unfold ret, slug_return.
    rewrite (string_of_runes_ascii _ HY). reflexivity.
Qed.

Lemma ToLower_caseless (s : string) :
  (forall r, 0x3000 <= r <= 0x9FFF -> unicode_To_LowerCase P r = r) ->
  forallb caseless (Utf8.runes s) = true ->
  strings_ToLower P s =
  Utf8.string_of_runes (filter (fun r => 0 <= r) (map ascii_ToLower (Utf8.runes s))).
Proof.
  intros H Hall. unfold strings_ToLower, strings_Map. do 2 f_equal.
  induction (Utf8.runes s) as [|r t IH]; [reflexivity|].
  simpl in Hall. apply andb_prop in Hall. destruct Hall as [Hr Ht].
  simpl. rewrite (IH Ht). f_equal.
  unfold unicode_ToLower, ascii_ToLower, caseless in *.
  destruct (r <=? 127) eqn:E; [reflexivity|].
  simpl in Hr. rewrite H by lia.
  replace ((65 <=? r) && (r <=? 90)) with false; [reflexivity|]. lia.
Qed.

(** C5: Slugify returns what the specification says for every input: the
    empty-input failure for the empty string, otherwise the lower-cased
    text with its runs outside [a-z0-9] collapsed to one hyphen each and
    the hyphens at both ends trimmed, or the empty-result failure when
    nothing is left; with the two examples of the claim.  The hypothesis
    says that the case tables leave kana and CJK ideographs alone. *)
Theorem Slugify_matches_spec :
  (forall r, 0x3000 <= r <= 0x9FFF -> unicode_To_LowerCase P r = r) ->
  (forall s st, Slugify P s st = (Ret (slug_return (Slugify_spec s)), st))
  /\ (forall st, Slugify P "Now is the Time!" st = (Ret ("now-is-the-time", None), st))
  /\ (forall st, Slugify P "Hello world, 今こそすべての善良な男性のための時です" st
                 = (Ret ("hello-world", None), st)).
Proof.
  intros H. split; [exact Slugify_spec_eq|]. split; intros st; unfold Slugify.
  - rewrite (ToLower_caseless _ H) by (vm_compute; reflexivity). vm_compute. reflexivity.
  - rewrite (ToLower_caseless _ H) by (vm_compute; reflexivity). vm_compute. reflexivity.
Qed.


(** ** The receiver is left alone *)

Lemma keeps_ret {A} (a : A) : keeps_tools (ret P a).
Proof. intros st. reflexivity. Qed.

Lemma keeps_panic {A} (msg : string) : keeps_tools (@panic P A msg).
Proof. intros st. reflexivity. Qed.

Lemma keeps_get_tools : keeps_tools (get_tools P).
Proof. intros st. reflexivity. Qed.

Lemma keeps_call {A} (f : OS P -> A * OS P) : keeps_tools (call P f).
Proof. intros st. unfold call. destruct (f (world P st)). reflexivity. Qed.

Lemma keeps_bind {A B} (m : M P A) (k : A -> M P B) :
  keeps_tools m -> (forall a, keeps_tools (k a)) -> keeps_tools (bind P m k).
Proof.
  intros Hm Hk st. unfold bind. specialize (Hm st).
  destruct (m st) as [[a|msg] st1]; simpl in *.
  - rewrite Hk. exact Hm.
  - exact Hm.
Qed.

Lemma keeps_defer {A B} (d : M P B) (body : M P A) :
  keeps_tools d -> keeps_tools body -> keeps_tools (defer P d body).
Proof.
  intros Hd Hb st. unfold defer. specialize (Hb st).
  destruct (body st) as [o st1]. simpl in *. rewrite Hd. exact Hb.
Qed.

Lemma keeps_if {A} (b : bool) (m1 m2 : M P A) :
  keeps_tools m1 -> keeps_tools m2 -> keeps_tools (if b then m1 else m2).
Proof. destruct b; auto. Qed.

Create HintDb keeps discriminated.
#[local] Hint Resolve keeps_ret keeps_panic keeps_get_tools keeps_call keeps_defer
  keeps_if : keeps.
#[local] Hint Extern 2 (keeps_tools (bind _ _ _)) => apply keeps_bind; [|intros ?] : keeps.
#[local] Hint Extern 3 (keeps_tools (match ?x with _ => _ end)) => destruct x : keeps.
#[local] Hint Extern 3 (keeps_tools (let '(_, _) := ?x in _)) => destruct x : keeps.

Ltac keeps := auto 30 with keeps.

Lemma keeps_RandomString_loop r idx : forall s, keeps_tools (RandomString_loop P r idx s).
Proof.
  induction idx as [|i idx IH]; intros s; simpl; [keeps|].
  unfold rem_uint64, index.
  apply keeps_bind; [keeps|intros p].
  apply keeps_bind; [keeps|intros j].
  apply keeps_bind; [keeps|intros c]. apply IH.
Qed.

Lemma keeps_RandomString n : keeps_tools (RandomString P n).
Proof.
  unfold RandomString, make_runes.
  apply keeps_bind; [keeps|intros s].
  apply keeps_bind; [apply keeps_RandomString_loop|intros s']. keeps.
Qed.

Lemma keeps_CreateDirIfNotExist path : keeps_tools (CreateDirIfNotExist P path).
Proof. unfold CreateDirIfNotExist. keeps. Qed.

Lemma keeps_Slugify s : keeps_tools (Slugify P s).
Proof. unfold Slugify. keeps. Qed.

Lemma keeps_DownloadStaticFile w r p file displayName :
  keeps_tools (DownloadStaticFile P w r p file displayName).
Proof. unfold DownloadStaticFile. keeps. Qed.

Lemma keeps_ReadJSON w r data : keeps_tools (ReadJSON P w r data).
Proof. unfold ReadJSON. keeps. Qed.

Lemma keeps_WriteHeader status w : keeps_tools (WriteHeader P status w).
Proof. intros st. unfold WriteHeader. destruct (rw_WriteHeader P status w (world P st)). reflexivity. Qed.

Lemma keeps_WriteJSON w status data headers : keeps_tools (WriteJSON P w status data headers).
Proof.
  unfold WriteJSON, Write. destruct (Marshal P data) as [out err].
  destruct (not_nil err); [keeps|].
  apply keeps_bind; [apply keeps_WriteHeader|intros w1]. keeps.
Qed.

Lemma keeps_ErrorJSON w err status : keeps_tools (ErrorJSON P w err status).
Proof. unfold ErrorJSON. destruct err; [apply keeps_WriteJSON|keeps]. Qed.

Lemma keeps_PushJSONToRemote uri data client : keeps_tools (PushJSONToRemote P uri data client).
Proof. unfold PushJSONToRemote. keeps. Qed.

Lemma keeps_store_part dir rn hdr infile ufs : keeps_tools (store_part P dir rn hdr infile ufs).
Proof.
  unfold store_part.
  apply keeps_bind; [keeps|intros sk]. apply keeps_if; [keeps|].
  apply keeps_bind.
  - destruct rn; [|keeps]. apply keeps_bind; [apply keeps_RandomString|intros; keeps].
  - intros name. keeps.
Qed.

Lemma keeps_upload_part dir rn hdr ufs : keeps_tools (upload_part P dir rn hdr ufs).
Proof.
  unfold upload_part.
  apply keeps_bind; [keeps|intros [infile err]]. apply keeps_if; [keeps|].
  apply keeps_defer; [keeps|].
  apply keeps_bind; [keeps|intros [[buff n] err2]]. apply keeps_if; [keeps|].
  apply keeps_bind; [keeps|intros t]. apply keeps_if; [keeps|apply keeps_store_part].
Qed.

Lemma keeps_UploadFiles_headers dir rn hdrs : forall ufs,
  keeps_tools (UploadFiles_headers P dir rn hdrs ufs).
Proof.
  induction hdrs as [|h hdrs IH]; intros ufs; simpl; [keeps|].
  apply keeps_bind; [apply keeps_upload_part|intros [fs err]].
  apply keeps_if; [keeps|apply IH].
Qed.

Lemma keeps_UploadFiles_fields dir rn File : forall ufs,
  keeps_tools (UploadFiles_fields P dir rn File ufs).
Proof.
  induction File as [|[name hdrs] File IH]; intros ufs; simpl; [keeps|].
  apply keeps_bind; [apply keeps_UploadFiles_headers|intros [[fs err] returned]].
  apply keeps_if; [keeps|apply IH].
Qed.

Lemma UploadFiles_tools r dir rename st :
  tools P (snd (UploadFiles P r dir rename st)) = default_MaxFileSize (tools P st).
Proof.
  unfold UploadFiles. cbv zeta.
  unfold bind at 1. unfold get_tools at 1. cbv iota beta.
  match goal with
  | |- tools P (snd (bind P ?m ?k _)) = _ =>
    assert (Hk : forall a, keeps_tools (k a))
  end.
  { intros a. apply keeps_bind; [apply keeps_CreateDirIfNotExist|intros err].
    apply keeps_if; [keeps|]. apply keeps_bind; [keeps|intros t].
    apply keeps_bind; [keeps|intros [File err2]].
    apply keeps_if; [keeps|apply keeps_UploadFiles_fields]. }
  unfold bind at 1. unfold default_MaxFileSize.
  destruct (MaxFileSize (tools P st) =? 0); simpl; rewrite Hk; reflexivity.
Qed.

Lemma UploadOneFile_tools r dir rename st :
  tools P (snd (UploadOneFile P r dir rename st)) = default_MaxFileSize (tools P st).
Proof.
  unfold UploadOneFile. cbv zeta. unfold bind at 1.
  pose proof (UploadFiles_tools r dir [rename_flag rename] st) as H.
  destruct (UploadFiles P r dir [rename_flag rename] st) as [[[files err]|msg] st1];
    simpl in *; [|exact H].
  rewrite <- H.
  assert (Hk : keeps_tools (if not_nil err then ret P (None, err)
     else bind P (index P files 0) (fun f => ret P (Some f, None)))).
  { unfold index. keeps. }
  apply Hk.
Qed.

(** ** Uploads *)

Lemma bind_inv {A B} (m : M P A) (k : A -> M P B) st b st' :
  bind P m k st = (Ret b, st') ->
  exists a st1, m st = (Ret a, st1) /\ k a st1 = (Ret b, st').
Proof.
  unfold bind. destruct (m st) as [[a|msg] st1]; [|discriminate].
  intros H. exists a, st1. split; [reflexivity|exact H].
Qed.

Lemma defer_inv {A B} (d : M P B) (body : M P A) st a st' :
  defer P d body st = (Ret a, st') ->
  exists st1, body st = (Ret a, st1) /\ st' = snd (d st1).
Proof.
  unfold defer. destruct (body st) as [o st1]. intros H.
  injection H as -> <-. exists st1. split; reflexivity.
Qed.

Lemma store_part_error_nil dir rn hdr infile ufs st files e st' :
  store_part P dir rn hdr infile ufs st = (Ret (files, Some e), st') -> files = [].
Proof.
  unfold store_part. intros H.
  apply bind_inv in H as (sk & s1 & _ & H).
  destruct (not_nil _); [unfold ret in H; congruence|].
  apply bind_inv in H as (name & s2 & _ & H).
  apply defer_inv in H as (s3 & H & _).
  apply bind_inv in H as ([outfile err] & s4 & _ & H).
  destruct (not_nil _); [unfold ret in H; congruence|].
  apply bind_inv in H as ([sz err2] & s5 & _ & H).
  destruct (not_nil _); unfold ret in H; congruence.
Qed.

Lemma upload_part_error_nil dir rn hdr ufs st files e st' :
  upload_part P dir rn hdr ufs st = (Ret (files, Some e), st') -> files = [].
Proof.
  unfold upload_part. intros H.
  apply bind_inv in H as ([infile err] & s1 & _ & H).
  destruct (not_nil _); [unfold ret in H; congruence|].
  apply defer_inv in H as (s2 & H & _).
  apply bind_inv in H as ([[buff n] err2] & s3 & _ & H).
  destruct (not_nil _); [unfold ret in H; congruence|].
  apply bind_inv in H as (t & s4 & _ & H).
  destruct (negb _); [unfold ret in H; congruence|].
  eapply store_part_error_nil. exact H.
Qed.

Lemma UploadFiles_headers_inv dir rn hdrs : forall ufs st files err returned st',
  UploadFiles_headers P dir rn hdrs ufs st = (Ret (files, err, returned), st') ->
  (returned = true -> err <> None /\ files = [])
  /\ (returned = false -> err = None).
Proof.
  induction hdrs as [|h hdrs IH]; intros ufs st files err returned st' H; simpl in H.
  - unfold ret in H. injection H as <- <- <- _. split; [discriminate|reflexivity].
  - unfold bind in H.
    destruct (upload_part P dir rn h ufs st) as [[[fs e]|msg] st1] eqn:Hp; [|discriminate].
    destruct e as [e|]; simpl in H.
    + unfold ret in H. injection H as <- <- <- _.
      split; [|discriminate]. intros _.
      split; [discriminate|].
      eapply upload_part_error_nil. exact Hp.
    + eapply IH. exact H.
Qed.

Lemma UploadFiles_fields_error_nil dir rn File : forall ufs st files e st',
  UploadFiles_fields P dir rn File ufs st = (Ret (files, Some e), st') -> files = [].
Proof.
  induction File as [|[name hdrs] File IH]; intros ufs st files e st' H; simpl in H.
  - unfold ret in H. discriminate.
  - unfold bind in H.
    destruct (UploadFiles_headers P dir rn hdrs ufs st) as [[[[fs err] returned]|msg] st1] eqn:Hh;
      [|discriminate].
    destruct (UploadFiles_headers_inv _ _ _ _ _ _ _ _ _ Hh) as [Ht Hf].
    destruct returned.
    + unfold ret in H. injection H as <- _ _. apply Ht. reflexivity.
    + eapply IH. exact H.
Qed.

(** C1 (the code against the claim): whenever UploadFiles returns an
    error, the list it returns with it is nil, whatever was stored before;
    UploadOneFile returns nil and that same error. *)
Theorem UploadFiles_error_returns_nil r dir rename st files e st' :
  UploadFiles P r dir rename st = (Ret (files, Some e), st') ->
  files = []
  /\ UploadOneFile P r dir rename st = (Ret (None, Some e), st').
Proof.
  intros H.
  assert (Hf : files = []).
  { revert H. unfold UploadFiles. cbv zeta.
    intros H.
    apply bind_inv in H as (t & s1 & _ & H).
    apply bind_inv in H as (u & s2 & _ & H).
    apply bind_inv in H as (err & s3 & _ & H).
    destruct (not_nil _); [unfold ret in H; congruence|].
    apply bind_inv in H as (t2 & s4 & _ & H).
    apply bind_inv in H as ([File err2] & s5 & _ & H).
    destruct (not_nil _); [unfold ret in H; congruence|].
    eapply UploadFiles_fields_error_nil. exact H. }
  split; [exact Hf|].
  unfold UploadOneFile. cbv zeta.
  assert (Hr : UploadFiles P r dir [rename_flag rename] st = UploadFiles P r dir rename st).
  { unfold UploadFiles. destruct rename; reflexivity. }
  unfold bind at 1. rewrite Hr, H. reflexivity.
Qed.

Lemma call_eq {A} (f : OS P -> A * OS P) st a w :
  f (world P st) = (a, w) -> call P f st = (Ret a, mkState P (tools P st) w).
Proof. intros H. unfold call. rewrite H. reflexivity. Qed.

Lemma bind_Ret {A B} (m : M P A) (k : A -> M P B) st a st1 :
  m st = (Ret a, st1) -> bind P m k st = k a st1.
Proof. intros H. unfold bind. rewrite H. reflexivity. Qed.

Lemma allowed_fold (ft : string) (types : list string) : forall acc,
  fold_left (fun allowed x => if strings_EqualFold P ft x then true else allowed) types acc
  = acc || existsb (strings_EqualFold P ft) types.
Proof.
  induction types as [|x types IH]; intros acc; simpl.
  - rewrite orb_false_r. reflexivity.
  - rewrite IH. destruct (strings_EqualFold P ft x), acc; reflexivity.
Qed.


(** C10: when the directory is there and the form parses but holds no
    file part, UploadFiles returns the nil list with a nil error, and
    UploadOneFile panics on [files[0]] instead of returning an error. *)
Theorem UploadOneFile_no_parts_panics r dir rename st st2 File w3 :
  CreateDirIfNotExist P dir (mkState P (default_MaxFileSize (tools P st)) (world P st))
    = (Ret None, st2) ->
  http_ParseMultipartForm P (req_info P r) (Body P r) (MaxFileSize (tools P st2)) (world P st2)
    = ((File, None), w3) ->
  (forall f, In f File -> snd f = []) ->
  UploadFiles P r dir rename st = (Ret ([], None), mkState P (tools P st2) w3)
  /\ UploadOneFile P r dir rename st = (Panic "index out of range", mkState P (tools P st2) w3).
Proof.
  intros Hdir Hparse Hempty.
  assert (Hfields : forall st0, UploadFiles_fields P dir (rename_flag rename) File [] st0
                               = (Ret ([], None), st0)).
  { clear Hparse. induction File as [|[name hdrs] File' IH]; intros st0; [reflexivity|].
    simpl. assert (hdrs = []) as -> by (apply (Hempty (name, hdrs)); left; reflexivity).
    simpl. unfold bind, ret. apply IH. intros f Hf. apply Hempty. right. exact Hf. }
  assert (Hup : forall rn, rename_flag rn = rename_flag rename ->
            UploadFiles P r dir rn st = (Ret ([], None), mkState P (tools P st2) w3)).
  { intros rn Hrn. unfold UploadFiles. cbv zeta. rewrite Hrn.
    unfold bind at 1. unfold get_tools at 1. cbv iota beta.
    unfold bind at 1.
    assert (Hset : (if MaxFileSize (tools P st) =? 0
                    then set_MaxFileSize P (1024 * 1024 * 1024) else ret P tt) st
                   = (Ret tt, mkState P (default_MaxFileSize (tools P st)) (world P st))).
    { unfold default_MaxFileSize. destruct (MaxFileSize (tools P st) =? 0).
      - reflexivity.
      - unfold ret. destruct st; reflexivity. }
    rewrite Hset. unfold bind at 1. rewrite Hdir. cbn [not_nil].
    unfold bind at 1. unfold get_tools at 1. cbv iota beta.
    unfold bind at 1. unfold call at 1. rewrite Hparse. cbn [not_nil].
    apply Hfields. }
  split; [apply Hup; reflexivity|].
  unfold UploadOneFile. cbv zeta. unfold bind at 1.
  rewrite (Hup [rename_flag rename]) by reflexivity. reflexivity.
Qed.

(** ** JSON *)

Lemma ReadJSON_unfold w r data st :
  ReadJSON P w r data st =
  let t := tools P st in
  let r' := mkRequest P (req_info P r) (json_body t w r) in
  let '(dec1, data1, err1, w1) := json_Decode P (json_decoder t w r) data (world P st) in
  match err1 with
  | Some e => (Ret (classify_decode_error P (json_limit t) e, r', data1), mkState P t w1)
  | None =>
    let '(_, _, err2, w2) := json_Decode P dec1 None w1 in
    (Ret (if bool_decide (err2 <> Some EOF)
          then errors_New "body must contain only one JSON value" else None, r', data1),
     mkState P t w2)
  end.
Proof.
  unfold ReadJSON, json_decoder, json_body, json_limit.
  unfold bind at 1. unfold get_tools at 1. cbv beta iota zeta.
  destruct (MaxJSONSize (tools P st) =? 0), (AllowUnknownFields (tools P st));
    simpl negb; cbv iota; cbn [Body req_info];
    unfold bind at 1; unfold call at 1;
    (destruct (json_Decode P _ data (world P st)) as [[[dec1 data1] [e|]] w1]; [reflexivity|]);
    unfold bind, call; cbn [tools world];
    (destruct (json_Decode P dec1 None w1) as [[[dec2 data2] err2] w2]);
    destruct (bool_decide (err2 <> Some EOF)); reflexivity.
Qed.

Lemma classify_decode_error_not_nil maxBytes e :
  classify_decode_error P maxBytes e <> None.
Proof.
  unfold classify_decode_error, errors_New.
  destruct e; repeat match goal with |- context [if ?b then _ else _] => destruct b end;
    discriminate.
Qed.

(** C6: ReadJSON always returns; it returns a nil error exactly when the
    first Decode succeeds and the second Decode hits io.EOF; when the first
    succeeds and the second does anything else, the error is
    "body must contain only one JSON value". *)
Theorem ReadJSON_one_value w r data st dec1 data1 err1 w1 dec2 data2 err2 w2 :
  json_Decode P (json_decoder (tools P st) w r) data (world P st) = ((dec1, data1, err1), w1) ->
  json_Decode P dec1 None w1 = ((dec2, data2, err2), w2) ->
  exists err r' data' st',
    ReadJSON P w r data st = (Ret (err, r', data'), st')
    /\ (err = None <-> err1 = None /\ err2 = Some EOF)
    /\ (err1 = None -> err2 <> Some EOF ->
        err = errors_New "body must contain only one JSON value").
Proof.
  intros H1 H2. rewrite ReadJSON_unfold. cbv zeta. rewrite H1.
  destruct err1 as [e|].
  - eexists _, _, _, _. split; [reflexivity|]. split.
    + split; [intros H|intros [H _]; discriminate].
      exfalso. exact (classify_decode_error_not_nil _ _ H).
    + discriminate.
  - rewrite H2. eexists _, _, _, _. split; [reflexivity|].
    case_bool_decide as He.
    + split; [split; [discriminate|intros [_ H]; contradiction]|reflexivity].
    + split; [split; [intros _; split; [reflexivity|]|reflexivity]|intros _ H; contradiction].
      destruct (decide (err2 = Some EOF)); [assumption|contradiction].
Qed.

(** C7 (amended): ReadJSON reads the body through a MaxBytesReader whose
    limit is MaxJSONSize, or 1048576 when that field is zero; when the first
    Decode, the one of the caller's value, meets that reader's error (the
    limit is hit before the value ends), ReadJSON returns
    "body must not be larger than <limit> bytes", with the limit in
    decimal. *)
Theorem ReadJSON_size_limit w r data st :
  let t := tools P st in
  let limit := if MaxJSONSize t =? 0 then 1048576 else MaxJSONSize t in
  (exists err r' data', fst (ReadJSON P w r data st) = Ret (err, r', data')
      /\ Body P r' = http_MaxBytesReader P w (Body P r) limit)
  /\ (forall dec1 data1 w1,
        json_Decode P (json_decoder t w r) data (world P st)
          = ((dec1, data1, Some (ErrorString "http: request body too large")), w1) ->
        exists r',
          ReadJSON P w r data st =
          (Ret (errors_New ("body must not be larger than " ++ format_int limit ++ " bytes"),
                r', data1), mkState P t w1)).
Proof.
  intros t limit. rewrite ReadJSON_unfold. cbv zeta. fold t. split.
  - destruct (json_Decode P (json_decoder t w r) data (world P st)) as [[[dec1 data1] [e|]] w1].
    + eexists _, _, _. split; reflexivity.
    + destruct (json_Decode P dec1 None w1) as [[[dec2 data2] err2] w2].
      eexists _, _, _. split; reflexivity.
  - intros dec1 data1 w1 H. rewrite H. eexists. reflexivity.
Qed.

(** C9 (amended): whenever PushJSONToRemote returns a response, the status
    code it returns is that of the response and the deferred Close has
    already run on the response body: with a Close that leaves a body
    closed, the body is closed in the state the call returns in. *)
Theorem PushJSONToRemote_body_closed uri data client st resp code st' :
  body_Close_closes ->
  PushJSONToRemote P uri data client st = (Ret (Some resp, code, None), st') ->
  code = StatusCode resp
  /\ body_closed P (resp_body resp) (world P st') = true.
Proof.
  intros Hc H. unfold PushJSONToRemote in H.
  destruct (Marshal P data) as [jsonData err].
  destruct (not_nil err); [unfold ret in H; discriminate|].
  cbv zeta in H.
  destruct (not_nil (http_NewRequest_ok P "Post" uri)); [unfold ret in H; discriminate|].
  apply bind_inv in H as ([response err2] & s1 & _ & H).
  destruct (not_nil err2); [unfold ret in H; discriminate|].
  destruct response as [resp0|]; [|discriminate].
  apply defer_inv in H as (s2 & H & ->).
  unfold ret in H. injection H as <- <- <-.
  split; [reflexivity|].
  unfold call. destruct (body_Close P (resp_body resp0) (world P s1)) as [e w'] eqn:E.
  cbn [snd world]. specialize (Hc (resp_body resp0) (world P s1)). rewrite E in Hc. exact Hc.
Qed.

(** C2 (amended): every operation leaves AllowedFileTypes, MaxJSONSize and
    AllowUnknownFields of the receiver as they were; all but UploadFiles
    and UploadOneFile leave MaxFileSize too, and those two replace a zero
    MaxFileSize by 1073741824 and keep any other value. *)
Theorem operations_keep_configuration (st : State P) :
  (forall n, tools P (snd (RandomString P n st)) = tools P st)
  /\ (forall path, tools P (snd (CreateDirIfNotExist P path st)) = tools P st)
  /\ (forall s, tools P (snd (Slugify P s st)) = tools P st)
  /\ (forall w r p file displayName,
        tools P (snd (DownloadStaticFile P w r p file displayName st)) = tools P st)
  /\ (forall w r data, tools P (snd (ReadJSON P w r data st)) = tools P st)
  /\ (forall w status data headers,
        tools P (snd (WriteJSON P w status data headers st)) = tools P st)
  /\ (forall w err status, tools P (snd (ErrorJSON P w err status st)) = tools P st)
  /\ (forall uri data client,
        tools P (snd (PushJSONToRemote P uri data client st)) = tools P st)
  /\ (forall r dir rename,
        let after := tools P (snd (UploadFiles P r dir rename st)) in
        let after1 := tools P (snd (UploadOneFile P r dir rename st)) in
        after = after1
        /\ AllowedFileTypes after = AllowedFileTypes (tools P st)
        /\ MaxJSONSize after = MaxJSONSize (tools P st)
        /\ AllowUnknownFields after = AllowUnknownFields (tools P st)
        /\ MaxFileSize after =
           (if MaxFileSize (tools P st) =? 0 then 1073741824 else MaxFileSize (tools P st))).
Proof.
  repeat split; intros.
  - apply keeps_RandomString.
  - apply keeps_CreateDirIfNotExist.
  - apply keeps_Slugify.
  - apply keeps_DownloadStaticFile.
  - apply keeps_ReadJSON.
  - apply keeps_WriteJSON.
  - apply keeps_ErrorJSON.
  - apply keeps_PushJSONToRemote.
  - rewrite UploadFiles_tools, UploadOneFile_tools. reflexivity.
  - rewrite UploadFiles_tools. unfold default_MaxFileSize.
    destruct (MaxFileSize (tools P st) =? 0); reflexivity.
  - rewrite UploadFiles_tools. unfold default_MaxFileSize.
    destruct (MaxFileSize (tools P st) =? 0); reflexivity.
  - rewrite UploadFiles_tools. unfold default_MaxFileSize.
    destruct (MaxFileSize (tools P st) =? 0); reflexivity.
  - rewrite UploadFiles_tools. unfold default_MaxFileSize.
    destruct (MaxFileSize (tools P st) =? 0); reflexivity.
Qed.

End Properties.

(** * Further properties of the operations *)

Section FurtherProperties.

Context (P : Platform).

(** ** RandomString: the characters it can return, and its bounds *)

Lemma RandomString_Ret_nonneg (n : Z) (st st' : State P) (s : string) :
  RandomString P n st = (Ret s, st') -> 0 <= n.
Proof.
  intros H. destruct (n <? 0) eqn:E; [|lia].
  unfold RandomString, make_runes in H. rewrite E in H. discriminate.
Qed.

Lemma RandomString_Ret_inv (n : Z) (st st' : State P) (s : string) :
  RandomString P n st = (Ret s, st') ->
  exists rs, s = string_of_bytes rs /\ length rs = Z.to_nat n /\ Forall (drawn_char P) rs.
Proof.
  intros H. pose proof (RandomString_Ret_nonneg _ _ _ _ H) as Hn.
  destruct (RandomString_run P n st Hn) as (rs & st2 & Hrun & _ & Hlen & Hd).
  rewrite Hrun in H. injection H as <- _.
  exists rs. split; [|split; assumption].
  apply string_of_runes_ascii.
  eapply Forall_impl; [exact Hd|]. intros c Hc.
  apply source_runes_ascii. eapply drawn_char_source. exact Hc.
Qed.

(** X1: every character RandomString returns is a character of
    randomStringSource. *)
Theorem RandomString_in_alphabet (n : Z) (st st' : State P) (s : string) :
  RandomString P n st = (Ret s, st') ->
  forall c, In c (list_ascii_of_string s) ->
            In c (list_ascii_of_string randomStringSource).
Proof.
  intros H c Hc. destruct (RandomString_Ret_inv _ _ _ _ H) as (rs & -> & _ & Hd).
  rewrite list_ascii_of_string_of_bytes in Hc. apply in_map_iff in Hc.
  destruct Hc as (b & <- & Hb).
  rewrite Forall_forall in Hd. apply list_elem_of_In, Hd in Hb.
  apply (drawn_char_source P) in Hb.
  change (list_ascii_of_string randomStringSource) with (map ascii_of_byte source_runes).
  apply in_map. exact Hb.
Qed.

(** X2: a negative length panics in make, before anything is drawn from the
    random source; length zero gives the empty string and draws nothing. *)
Theorem RandomString_bounds (n : Z) (st : State P) :
  (n < 0 -> RandomString P n st = (Panic "makeslice: len out of range", st))
  /\ (n = 0 -> RandomString P n st = (Ret "", st)).
Proof.
  split.
  - intros Hn. unfold RandomString, make_runes.
    replace (n <? 0) with true by (symmetry; apply Z.ltb_lt; exact Hn). reflexivity.
  - intros ->. reflexivity.
Qed.

(** ** Slugify: the shape of a slug *)

Lemma in_class_range (r : rune) : in_class r = true -> 48 <= r <= 122.
Proof. unfold in_class. lia. Qed.

Lemma slug_char_ascii (b : Z) : slug_char b = true -> 0 <= b <= 127.
Proof. unfold slug_char, in_class. lia. Qed.

Lemma slug_char_cases (b : Z) : slug_char b = true -> in_class b = true \/ b = 45.
Proof. unfold slug_char. destruct (in_class b); [left; reflexivity|right; lia]. Qed.

Lemma replace_from_slug_chars (b : bool) (rs : list rune) :
  Forall (fun c => slug_char c = true) (replace_from b rs).
Proof.
  revert b. induction rs as [|r t IH]; intros b; simpl; [constructor|].
  destruct (in_class r) eqn:Hr.
  - constructor; [unfold slug_char; rewrite Hr; reflexivity|apply IH].
  - destruct b; [apply IH|]. constructor; [reflexivity|apply IH].
Qed.

Lemma replace_from_no_double (rs : list rune) : forall b,
  no_double_hyphen (replace_from b rs)
  /\ (b = true -> head (replace_from b rs) <> Some 45).
Proof.
  induction rs as [|r t IH]; intros b; simpl.
  - split; [exact I|discriminate].
  - destruct (in_class r) eqn:Hr.
    + pose proof (in_class_range r Hr) as Hrange.
      destruct (IH false) as [Hnd _]. split.
      * simpl. split; [|exact Hnd].
        destruct (replace_from false t); [exact I|]. intros [H _]. lia.
      * intros _. simpl. intros H. injection H as H. lia.
    + destruct b.
      * apply IH.
      * destruct (IH true) as [Hnd Hhead]. split; [|discriminate].
        simpl. split; [|exact Hnd].
        destruct (replace_from true t) as [|x l] eqn:E; [exact I|].
        intros [_ Hx]. apply Hhead; [reflexivity|]. simpl. f_equal. exact Hx.
Qed.

Lemma no_double_hyphen_tail (a : Z) (t : list Z) :
  no_double_hyphen (a :: t) -> no_double_hyphen t.
Proof. simpl. intros [_ H]. exact H. Qed.

Lemma no_double_hyphen_trimLeft (l : list Z) (c : Z) :
  no_double_hyphen l -> no_double_hyphen (trimLeftByte l c).
Proof.
  induction l as [|b t IH]; intros H; [exact I|].
  simpl trimLeftByte. destruct (b =? c); [|exact H].
  apply IH. eapply no_double_hyphen_tail. exact H.
Qed.

Lemma trimRightByte_cons (b : Z) (t : list Z) (c : Z) :
  trimRightByte (b :: t) c =
  match trimRightByte t c with
  | [] => if b =? c then [] else [b]
  | t' => b :: t'
  end.
Proof. reflexivity. Qed.

Lemma head_trimRight (l : list Z) (c : Z) :
  trimRightByte l c <> [] -> head (trimRightByte l c) = head l.
Proof.
  destruct l as [|b t]; [reflexivity|]. rewrite trimRightByte_cons.
  destruct (trimRightByte t c); [|reflexivity].
  destruct (b =? c); [contradiction|reflexivity].
Qed.

Lemma no_double_hyphen_trimRight (l : list Z) (c : Z) :
  no_double_hyphen l -> no_double_hyphen (trimRightByte l c).
Proof.
  induction l as [|b t IH]; intros H; [exact I|].
  rewrite trimRightByte_cons. destruct H as [Hb Ht]. specialize (IH Ht).
  destruct (trimRightByte t c) as [|x l'] eqn:E.
  - destruct (b =? c); simpl; auto.
  - split; [|exact IH].
    assert (Hh : head (trimRightByte t c) = head t)
      by (apply head_trimRight; rewrite E; discriminate).
    rewrite E in Hh. destruct t as [|y t']; [discriminate|].
    simpl in Hh. injection Hh as ->. exact Hb.
Qed.

Lemma head_trimLeft (l : list Z) (c : Z) : head (trimLeftByte l c) <> Some c.
Proof.
  induction l as [|b t IH]; simpl; [discriminate|].
  destruct (b =? c) eqn:E; [exact IH|]. simpl. intros H. injection H as H. lia.
Qed.

Lemma last_trimRight (l : list Z) (c : Z) : last (trimRightByte l c) <> Some c.
Proof.
  induction l as [|b t IH]; [discriminate|].
  rewrite trimRightByte_cons. destruct (trimRightByte t c) as [|x l'] eqn:E.
  - destruct (b =? c) eqn:Eb; simpl; [discriminate|]. intros H. injection H as H. lia.
  - rewrite last_cons. destruct (last (x :: l')) eqn:El; [exact IH|].
    apply last_None in El. discriminate.
Qed.

Lemma trimLeft_id (l : list Z) (c : Z) : head l <> Some c -> trimLeftByte l c = l.
Proof.
  destruct l as [|b t]; [reflexivity|]. simpl. intros H.
  destruct (b =? c) eqn:E; [|reflexivity]. exfalso. apply H. f_equal. lia.
Qed.

Lemma trimRight_id (l : list Z) (c : Z) : last l <> Some c -> trimRightByte l c = l.
Proof.
  induction l as [|b t IH]; [reflexivity|]. intros H. rewrite trimRightByte_cons.
  destruct t as [|x t'].
  - simpl. destruct (b =? c) eqn:E; [|reflexivity]. exfalso. apply H. simpl. f_equal. lia.
  - rewrite IH; [reflexivity|]. rewrite last_cons in H.
    destruct (last (x :: t')) eqn:El; [exact H|]. apply last_None in El. discriminate.
Qed.

(** What a successful call of Slugify returns. *)
Lemma Slugify_Ret_inv (s slug : string) (st st' : State P) :
  Slugify P s st = (Ret (slug, None), st') ->
  st' = st /\ exists Y, slug = string_of_bytes Y /\ slug_shaped Y.
Proof.
  unfold Slugify. destruct (String.eqb s ""); [discriminate|].
  cbv zeta. unfold strings_Trim_byte, ReplaceAllString.
  set (X := replace_from false (Utf8.runes (strings_ToLower P s))).
  assert (HX : Forall (fun c => 0 <= c <= 127) X) by apply replace_from_ascii.
  rewrite (string_of_runes_ascii X HX).
  rewrite bytes_string_of_bytes
    by (eapply Forall_impl; [exact HX|]; simpl; intros; lia).
  set (Y := trimLeftByte (trimRightByte X 45) 45).
  unfold len_string. rewrite length_string_of_bytes.
  destruct Y as [|y Y'] eqn:EY; [discriminate|].
  simpl (Z.of_nat _ =? 0). unfold ret. intros H. injection H as <- <-.
  split; [reflexivity|]. exists (y :: Y'). split; [reflexivity|].
  rewrite <- EY. unfold slug_shaped. split; [rewrite EY; discriminate|].
  split; [apply trimLeftByte_Forall, trimRightByte_Forall, replace_from_slug_chars|].
  split; [apply head_trimLeft|].
  split; [unfold Y; rewrite trim_commute; apply last_trimRight|].
  apply no_double_hyphen_trimLeft, no_double_hyphen_trimRight.
  apply (replace_from_no_double _ false).
Qed.

Lemma slug_shaped_bytes (Y : list Z) :
  Forall (fun b => slug_char b = true) Y -> bytes (string_of_bytes Y) = Y.
Proof.
  intros H. apply bytes_string_of_bytes.
  eapply Forall_impl; [exact H|]. intros b Hb. apply slug_char_ascii in Hb. lia.
Qed.

(** X3: a slug is not empty, is made of [a-z0-9] and hyphens only, has no
    hyphen at either end and no two hyphens in a row. *)
Theorem Slugify_slug_shape (s slug : string) (st st' : State P) :
  Slugify P s st = (Ret (slug, None), st') -> slug_shaped (bytes slug).
Proof.
  intros H. destruct (Slugify_Ret_inv _ _ _ _ H) as (_ & Y & -> & HY).
  rewrite slug_shaped_bytes; [exact HY|]. apply HY.
Qed.

(** ** Slugify: slugs are fixed points, and when there is a slug *)

Lemma decode_ascii (l : list Z) :
  Forall (fun c => 0 <= c <= 127) l -> Utf8.decode l = l.
Proof.
  induction 1 as [|c l Hc _ IH]; [reflexivity|].
  simpl. replace (c <? 128) with true by (symmetry; apply Z.ltb_lt; lia).
  rewrite IH. reflexivity.
Qed.

Lemma ToLower_slug_chars (l : list Z) :
  Forall (fun b => slug_char b = true) l -> map (unicode_ToLower P) l = l.
Proof.
  induction 1 as [|c l Hc _ IH]; [reflexivity|].
  simpl. rewrite IH. f_equal. unfold unicode_ToLower.
  unfold slug_char, in_class in Hc.
  replace (c <=? 127) with true by (symmetry; apply Z.leb_le; lia).
  replace ((65 <=? c) && (c <=? 90)) with false by lia. reflexivity.
Qed.

Lemma replace_from_slug (l : list Z) :
  Forall (fun b => slug_char b = true) l -> no_double_hyphen l ->
  replace_from false l = l /\ (head l <> Some 45 -> replace_from true l = l).
Proof.
  induction 1 as [|c l Hc _ IH]; intros Hnd; [split; reflexivity|].
  destruct Hnd as [Hc2 Hnd]. destruct (IH Hnd) as [IH1 IH2].
  simpl. destruct (slug_char_cases c Hc) as [Hcl| ->].
  - rewrite Hcl, IH1. split; reflexivity.
  - change (in_class 45) with false. cbv iota.
    assert (Hh : head l <> Some 45).
    { destruct l as [|x l']; [discriminate|]. simpl. intros H. injection H as ->.
      apply Hc2. split; reflexivity. }
    rewrite (IH2 Hh). split; [reflexivity|]. intros H. exfalso. apply H. reflexivity.
Qed.

(** Slugify on a text that has the shape of a slug returns that text. *)
Lemma Slugify_of_slug_shaped (Y : list Z) (st : State P) :
  slug_shaped Y ->
  Slugify P (string_of_bytes Y) st = (Ret (string_of_bytes Y, None), st).
Proof.
  intros (Hne & Hch & Hhead & Hlast & Hnd).
  assert (Hascii : Forall (fun c => 0 <= c <= 127) Y).
  { eapply Forall_impl; [exact Hch|]. intros b Hb. apply slug_char_ascii, Hb. }
  assert (Hbytes : bytes (string_of_bytes Y) = Y) by (apply slug_shaped_bytes, Hch).
  assert (Hrunes : Utf8.runes (string_of_bytes Y) = Y).
  { unfold Utf8.runes. rewrite Hbytes. apply decode_ascii, Hascii. }
  assert (Hlower : strings_ToLower P (string_of_bytes Y) = string_of_bytes Y).
  { unfold strings_ToLower, strings_Map. rewrite Hrunes, (ToLower_slug_chars Y Hch).
    match goal with
    | |- context [filter ?f Y] => replace (filter f Y) with Y
    end; [apply string_of_runes_ascii, Hascii|].
    clear -Hascii. induction Hascii as [|c l Hc _ IH]; [reflexivity|].
    rewrite filter_cons_True by lia. f_equal. exact IH. }
  unfold Slugify.
  assert (Heq : String.eqb (string_of_bytes Y) "" = false).
  { destruct Y as [|y Y']; [contradiction|]. reflexivity. }
  rewrite Heq, Hlower. cbv zeta.
  unfold strings_Trim_byte, ReplaceAllString. rewrite Hrunes.
  destruct (replace_from_slug Y Hch Hnd) as [-> _].
  rewrite (string_of_runes_ascii Y Hascii), Hbytes.
  rewrite (trimRight_id Y 45 Hlast), (trimLeft_id Y 45 Hhead).
  unfold len_string. rewrite length_string_of_bytes.
  destruct Y as [|y Y']; [contradiction|]. reflexivity.
Qed.

(** X4: Slugify is idempotent: the slug of a slug is the slug itself. *)
Theorem Slugify_idempotent (s slug : string) (st st' st2 : State P) :
  Slugify P s st = (Ret (slug, None), st') ->
  Slugify P slug st2 = (Ret (slug, None), st2).
Proof.
  intros H. destruct (Slugify_Ret_inv _ _ _ _ H) as (_ & Y & -> & HY).
  apply Slugify_of_slug_shaped, HY.
Qed.

Lemma trimLeftByte_nil_iff (l : list Z) (c : Z) :
  trimLeftByte l c = [] <-> Forall (fun b => b = c) l.
Proof.
  induction l as [|b t IH]; simpl; [split; [constructor|reflexivity]|].
  destruct (b =? c) eqn:E.
  - rewrite IH. split; [intros H; constructor; [lia|exact H]|intros H; inversion H; assumption].
  - split; [discriminate|]. intros H. inversion H. lia.
Qed.

Lemma trimRightByte_nil_iff (l : list Z) (c : Z) :
  trimRightByte l c = [] <-> Forall (fun b => b = c) l.
Proof.
  induction l as [|b t IH]; [split; [constructor|reflexivity]|].
  rewrite trimRightByte_cons. destruct (trimRightByte t c) as [|x l'] eqn:E.
  - destruct IH as [IH1 _]. specialize (IH1 eq_refl). destruct (b =? c) eqn:Eb.
    + split; [intros _; constructor; [lia|exact IH1]|reflexivity].
    + split; [discriminate|]. intros H. inversion H. lia.
  - split; [discriminate|]. intros H. inversion H as [|? ? _ Ht]. subst.
    apply IH in Ht. discriminate.
Qed.

Lemma replace_from_all_hyphens (rs : list rune) : forall b,
  Forall (fun x => x = 45) (replace_from b rs) <-> existsb in_class rs = false.
Proof.
  induction rs as [|r t IH]; intros b; simpl; [split; [reflexivity|constructor]|].
  destruct (in_class r) eqn:Hr; simpl.
  - split; [|discriminate]. intros H. inversion H as [|? ? H45 _]. subst.
    apply in_class_range in Hr. lia.
  - destruct b; [apply IH|]. rewrite <- (IH true).
    split; [intros H; inversion H; assumption|intros H; constructor; [reflexivity|exact H]].
Qed.

(** X5: for a text that is not empty, Slugify returns a slug exactly when the
    lower-cased text has a character in [a-z0-9]; otherwise it fails with the
    zero-length error.  It never changes the state. *)
Theorem Slugify_succeeds_iff (s : string) (st : State P) :
  s <> "" ->
  let found := existsb in_class (Utf8.runes (strings_ToLower P s)) in
  (found = true -> exists slug, slug <> "" /\ Slugify P s st = (Ret (slug, None), st))
  /\ (found = false ->
      Slugify P s st
      = (Ret ("", errors_New "after removing unsafe characters, slug is zero length"), st)).
Proof.
  intros Hs found. unfold Slugify.
  destruct (String.eqb_spec s "") as [->|_]; [contradiction|].
  cbv zeta. unfold strings_Trim_byte, ReplaceAllString.
  set (X := replace_from false (Utf8.runes (strings_ToLower P s))).
  assert (HX : Forall (fun c => 0 <= c <= 127) X) by apply replace_from_ascii.
  rewrite (string_of_runes_ascii X HX).
  rewrite bytes_string_of_bytes
    by (eapply Forall_impl; [exact HX|]; simpl; intros; lia).
  assert (Hiff : trimLeftByte (trimRightByte X 45) 45 = [] <-> found = false).
  { unfold found. rewrite <- (replace_from_all_hyphens _ false). fold X.
    rewrite trimLeftByte_nil_iff. split.
    - intros H. apply trimRightByte_nil_iff.
      destruct (trimRightByte X 45) as [|x l] eqn:E; [reflexivity|exfalso].
      pose proof (last_trimRight X 45) as Hl. rewrite E in Hl.
      apply Hl. clear Hl E. revert x H. induction l as [|y l IH]; intros x H.
      + inversion H. subst. reflexivity.
      + rewrite last_cons. inversion H as [|? ? _ H2]. subst.
        rewrite (IH y H2). reflexivity.
    - intros H. apply trimRightByte_nil_iff in H. rewrite H. constructor. }
  unfold len_string. rewrite length_string_of_bytes.
  destruct (trimLeftByte (trimRightByte X 45) 45) as [|y Y'] eqn:EY.
  - split; [|reflexivity]. intros Hf. destruct Hiff as [Hiff _].
    rewrite Hiff in Hf by reflexivity. discriminate.
  - split.
    + intros _. eexists. split; [|reflexivity]. discriminate.
    + intros Hf. apply Hiff in Hf. discriminate.
Qed.

(** ** CreateDirIfNotExist *)

Lemma call_inv {A} (f : OS P -> A * OS P) (st st' : State P) (a : A) :
  call P f st = (Ret a, st') -> f (world P st) = (a, world P st') /\ tools P st' = tools P st.
Proof.
  unfold call. destruct (f (world P st)) as [a' w]. intros H. injection H as <- <-.
  split; reflexivity.
Qed.

Lemma CreateDirIfNotExist_unfold (path : string) (st : State P) :
  CreateDirIfNotExist P path st =
  let '(serr, w1) := os_Stat P path (world P st) in
  if os_IsNotExist P serr
  then let '(merr, w2) := os_MkdirAll P path 493 w1 in (Ret merr, mkState P (tools P st) w2)
  else (Ret None, mkState P (tools P st) w1).
Proof.
  unfold CreateDirIfNotExist. cbv zeta. unfold bind at 1. unfold call at 1.
  destruct (os_Stat P path (world P st)) as [serr w1].
  destruct (os_IsNotExist P serr); [|reflexivity].
  unfold bind, call. cbn [tools world].
  destruct (os_MkdirAll P path 493 w1) as [[e|] w2]; reflexivity.
Qed.

(** X6: CreateDirIfNotExist always returns.  When Stat does not report that
    the path is missing, whatever else it reports, the result is nil and
    MkdirAll is not called; an error it returns is the error of MkdirAll. *)
Theorem CreateDirIfNotExist_outcome (path : string) (st : State P) :
  let serr := fst (os_Stat P path (world P st)) in
  let w1 := snd (os_Stat P path (world P st)) in
  (exists err st', CreateDirIfNotExist P path st = (Ret err, st'))
  /\ (os_IsNotExist P serr = false ->
      CreateDirIfNotExist P path st = (Ret None, mkState P (tools P st) w1))
  /\ (forall e st', CreateDirIfNotExist P path st = (Ret (Some e), st') ->
        os_IsNotExist P serr = true
        /\ os_MkdirAll P path 493 w1 = (Some e, world P st')).
Proof.
  intros serr w1. rewrite CreateDirIfNotExist_unfold. unfold serr, w1.
  destruct (os_Stat P path (world P st)) as [e1 w]. cbn [fst snd].
  destruct (os_IsNotExist P e1).
  - destruct (os_MkdirAll P path 493 w) as [merr w2]. split; [eauto|].
    split; [discriminate|]. intros e st' H. injection H as -> <-. split; reflexivity.
  - split; [eauto|]. split; [reflexivity|]. discriminate.
Qed.

(** X7: on a file system that keeps [dir_contract], a second call after a
    successful one returns nil without calling MkdirAll. *)
Theorem CreateDirIfNotExist_idempotent (path : string) (st st1 : State P) :
  dir_contract P ->
  CreateDirIfNotExist P path st = (Ret None, st1) ->
  CreateDirIfNotExist P path st1
  = (Ret None, mkState P (tools P st1) (snd (os_Stat P path (world P st1)))).
Proof.
  intros [Hmk Hstat] H. rewrite CreateDirIfNotExist_unfold in H.
  assert (Hex : os_IsNotExist P (fst (os_Stat P path (world P st1))) = false).
  { destruct (os_Stat P path (world P st)) as [e1 w] eqn:E1.
    destruct (os_IsNotExist P e1) eqn:Ene.
    - destruct (os_MkdirAll P path 493 w) as [merr w2] eqn:E2.
      injection H as -> <-. cbn [world]. eapply Hmk. exact E2.
    - injection H as <-. cbn [world].
      pose proof (Hstat path (world P st)) as Hs. rewrite E1 in Hs. apply Hs. exact Ene. }
  rewrite CreateDirIfNotExist_unfold.
  destruct (os_Stat P path (world P st1)) as [e w]. cbn [fst snd] in *.
  rewrite Hex. reflexivity.
Qed.

(** ** Uploads: what is stored, and the early exits *)

Lemma RandomString_len (n : Z) (st st' : State P) (s : string) :
  RandomString P n st = (Ret s, st') -> len_string s = n.
Proof.
  intros H. pose proof (RandomString_Ret_nonneg _ _ _ _ H) as Hn.
  destruct (RandomString_Ret_inv _ _ _ _ H) as (rs & -> & Hlen & _).
  unfold len_string, rune in *. rewrite length_string_of_bytes, Hlen. lia.
Qed.

Lemma store_part_ok dir rn hdr infile ufs st files st' :
  store_part P dir rn hdr infile ufs st = (Ret (files, None), st') ->
  exists f, files = (ufs ++ [f])%list /\ stored_as P rn hdr f.
Proof.
  unfold store_part. intros H.
  apply bind_inv in H as (sk & s1 & _ & H).
  destruct (not_nil (snd sk)) eqn:Esk.
  { unfold ret in H. injection H as _ He _. rewrite He in Esk. discriminate. }
  apply bind_inv in H as (name & s2 & Hname & H).
  apply defer_inv in H as (s3 & H & _).
  apply bind_inv in H as ([outfile err] & s4 & _ & H).
  destruct err as [e|]; [unfold ret in H; discriminate|]. cbn [not_nil] in H.
  apply bind_inv in H as ([sz err2] & s5 & _ & H).
  destruct err2 as [e|]; [unfold ret in H; discriminate|]. cbn [not_nil] in H.
  unfold ret in H. injection H as <- _.
  eexists. split; [reflexivity|]. unfold stored_as. cbn [OriginalFileName NewFileName].
  split; [reflexivity|]. destruct rn.
  - apply bind_inv in Hname as (rs & s6 & Hrs & Hname).
    unfold ret in Hname. injection Hname as <- _.
    exists rs. split; [reflexivity|]. eapply RandomString_len. exact Hrs.
  - unfold ret in Hname. injection Hname as <- _. reflexivity.
Qed.

Lemma upload_part_ok dir rn hdr ufs st files st' :
  upload_part P dir rn hdr ufs st = (Ret (files, None), st') ->
  exists f, files = (ufs ++ [f])%list /\ stored_as P rn hdr f.
Proof.
  unfold upload_part. intros H.
  apply bind_inv in H as ([infile err] & s1 & _ & H).
  destruct err as [e|]; [unfold ret in H; discriminate|]. cbn [not_nil] in H.
  apply defer_inv in H as (s2 & H & _).
  apply bind_inv in H as ([[buff n] err2] & s3 & _ & H).
  destruct err2 as [e|]; [unfold ret in H; discriminate|]. cbn [not_nil] in H.
  apply bind_inv in H as (t & s4 & _ & H).
  destruct (negb _); [unfold ret in H; discriminate|].
  eapply store_part_ok. exact H.
Qed.

Lemma UploadFiles_headers_ok dir rn hdrs : forall ufs st files returned st',
  UploadFiles_headers P dir rn hdrs ufs st = (Ret (files, None, returned), st') ->
  exists fs, files = (ufs ++ fs)%list /\ Forall2 (stored_as P rn) hdrs fs.
Proof.
  induction hdrs as [|h hdrs IH]; intros ufs st files returned st' H; simpl in H.
  - unfold ret in H. injection H as <- _ _. exists []. rewrite app_nil_r.
    split; [reflexivity|constructor].
  - apply bind_inv in H as ([fs1 e] & s1 & Hp & H).
    destruct e as [e|]; [unfold ret in H; discriminate|]. cbn [not_nil] in H.
    apply upload_part_ok in Hp as (f & -> & Hf).
    apply IH in H as (fs & -> & Hfs).
    exists (f :: fs). rewrite <- app_assoc. split; [reflexivity|].
    constructor; assumption.
Qed.

Lemma UploadFiles_fields_ok dir rn File : forall ufs st files st',
  UploadFiles_fields P dir rn File ufs st = (Ret (files, None), st') ->
  exists fs, files = (ufs ++ fs)%list
             /\ Forall2 (stored_as P rn) (concat (map snd File)) fs.
Proof.
  induction File as [|[name hdrs] File IH]; intros ufs st files st' H; simpl in H.
  - unfold ret in H. injection H as <- _. exists []. rewrite app_nil_r.
    split; [reflexivity|constructor].
  - apply bind_inv in H as ([[fs1 err] returned] & s1 & Hh & H).
    destruct (UploadFiles_headers_inv P _ _ _ _ _ _ _ _ _ Hh) as [Ht Hf].
    destruct returned.
    + unfold ret in H. injection H as _ -> _. destruct Ht as [Ht _]; [reflexivity|].
      contradiction.
    + rewrite Hf in Hh by reflexivity.
      apply UploadFiles_headers_ok in Hh as (fs & -> & Hfs).
      apply IH in H as (fs' & -> & Hfs').
      exists (fs ++ fs')%list. rewrite <- app_assoc. split; [reflexivity|].
      simpl. apply Forall2_app; assumption.
Qed.

Lemma UploadFiles_default_step (st : State P) :
  (if MaxFileSize (tools P st) =? 0
   then set_MaxFileSize P (1024 * 1024 * 1024) else ret P tt) st
  = (Ret tt, mkState P (default_MaxFileSize (tools P st)) (world P st)).
Proof.
  unfold default_MaxFileSize. destruct (MaxFileSize (tools P st) =? 0).
  - reflexivity.
  - unfold ret. destruct st; reflexivity.
Qed.

Lemma UploadFiles_unfold r dir rename st :
  UploadFiles P r dir rename st =
  match CreateDirIfNotExist P dir (mkState P (default_MaxFileSize (tools P st)) (world P st)) with
  | (Ret (Some e), st2) => (Ret ([], Some e), st2)
  | (Ret None, st2) =>
    match http_ParseMultipartForm P (req_info P r) (Body P r)
            (MaxFileSize (tools P st2)) (world P st2) with
    | ((_, Some _), w3) =>
      (Ret ([], errors_New "the uploaded file is too big"), mkState P (tools P st2) w3)
    | ((File, None), w3) =>
      UploadFiles_fields P dir (rename_flag rename) File [] (mkState P (tools P st2) w3)
    end
  | (Panic msg, st2) => (Panic msg, st2)
  end.
Proof.
  unfold UploadFiles. cbv zeta.
  unfold bind at 1. unfold get_tools at 1. cbv iota beta.
  unfold bind at 1. rewrite UploadFiles_default_step.
  unfold bind at 1.
  destruct (CreateDirIfNotExist P dir _) as [[[e|]|msg] st2]; [reflexivity| |reflexivity].
  cbn [not_nil]. unfold bind at 1. unfold get_tools at 1. cbv iota beta.
  unfold bind at 1. unfold call at 1.
  destruct (http_ParseMultipartForm P _ _ _ _) as [[File [e|]] w3]; reflexivity.
Qed.

(** X8: when UploadFiles succeeds it returns one record for every file header
    of the form, in the order of the form: the original name is the name of
    the header, and the new name is that name again or, with renaming, 25
    random characters followed by the extension of the original name. *)
Theorem UploadFiles_stores_every_part r dir rename st files st' :
  UploadFiles P r dir rename st = (Ret (files, None), st') ->
  exists st2 File w3,
    CreateDirIfNotExist P dir (mkState P (default_MaxFileSize (tools P st)) (world P st))
      = (Ret None, st2)
    /\ http_ParseMultipartForm P (req_info P r) (Body P r)
         (MaxFileSize (tools P st2)) (world P st2) = ((File, None), w3)
    /\ Forall2 (stored_as P (rename_flag rename)) (concat (map snd File)) files
    /\ length files = length (concat (map snd File)).
Proof.
  rewrite UploadFiles_unfold.
  destruct (CreateDirIfNotExist P dir _) as [[[e|]|msg] st2] eqn:Hd; try discriminate.
  destruct (http_ParseMultipartForm P _ _ _ _) as [[File [e|]] w3] eqn:Hp; [discriminate|].
  intros H. apply UploadFiles_fields_ok in H as (fs & -> & Hfs).
  exists st2, File, w3. split; [reflexivity|]. split; [exact Hp|].
  split; [exact Hfs|]. symmetry. eapply Forall2_length. exact Hfs.
Qed.

(** X9: the early exits of UploadFiles: an error of the directory step is
    returned as it is and the form is not parsed; every error of
    ParseMultipartForm, whatever it is, is reported as
    "the uploaded file is too big".  In both cases the list is nil. *)
Theorem UploadFiles_early_errors r dir rename st :
  let st1 := mkState P (default_MaxFileSize (tools P st)) (world P st) in
  (forall e st2,
     CreateDirIfNotExist P dir st1 = (Ret (Some e), st2) ->
     UploadFiles P r dir rename st = (Ret ([], Some e), st2))
  /\ (forall st2 File e w3,
        CreateDirIfNotExist P dir st1 = (Ret None, st2) ->
        http_ParseMultipartForm P (req_info P r) (Body P r)
          (MaxFileSize (tools P st2)) (world P st2) = ((File, Some e), w3) ->
        UploadFiles P r dir rename st
        = (Ret ([], errors_New "the uploaded file is too big"), mkState P (tools P st2) w3)).
Proof.
  intros st1. split.
  - intros e st2 Hd. rewrite UploadFiles_unfold. fold st1. rewrite Hd. reflexivity.
  - intros st2 File e w3 Hd Hp. rewrite UploadFiles_unfold. fold st1. rewrite Hd, Hp.
    reflexivity.
Qed.

(** X10: UploadOneFile stores every part of the form, as UploadFiles does, and
    returns the record of the first one. *)
Theorem UploadOneFile_returns_first r dir rename st f rest st' :
  UploadFiles P r dir rename st = (Ret (f :: rest, None), st') ->
  UploadOneFile P r dir rename st = (Ret (Some f, None), st').
Proof.
  intros H. unfold UploadOneFile. cbv zeta.
  assert (Hr : UploadFiles P r dir [rename_flag rename] st = UploadFiles P r dir rename st).
  { unfold UploadFiles. destruct rename; reflexivity. }
  unfold bind at 1. rewrite Hr, H. reflexivity.
Qed.

(** X11: a part that does not open fails the call with the error of Open; a
    part that opens is closed again on every way out of the function
    literal, whether the part is stored, rejected, or the call panics. *)
Theorem upload_part_closes_part dir rn hdr ufs st infile err w1 :
  hdr_Open P hdr (world P st) = ((infile, err), w1) ->
  (err <> None ->
   upload_part P dir rn hdr ufs st = (Ret ([], err), mkState P (tools P st) w1))
  /\ (err = None ->
      exists o w2,
        upload_part P dir rn hdr ufs st
        = (o, mkState P (tools P st) (snd (file_Close P infile w2)))).
Proof.
  intros Hopen. unfold upload_part.
  rewrite (bind_Ret P _ _ _ _ _ (call_eq P _ _ _ _ Hopen)).
  destruct err as [e|]; cbn [not_nil].
  - split; [reflexivity|discriminate].
  - split; [intros H; contradiction|]. intros _. unfold defer.
    match goal with
    | |- context [match ?body ?s with _ => _ end] =>
      assert (Hk : keeps_tools P body); [|pose proof (Hk s) as Hs; destruct (body s) as [o st1]]
    end.
    { apply keeps_bind; [apply keeps_call|intros [[buff n] err2]].
      apply keeps_if; [apply keeps_ret|].
      apply keeps_bind; [apply keeps_get_tools|intros t].
      apply keeps_if; [apply keeps_ret|apply keeps_store_part]. }
    cbn [snd tools] in Hs. exists o, (world P st1). f_equal.
    unfold call. destruct (file_Close P infile (world P st1)) as [e w]. cbn [snd].
    rewrite Hs. reflexivity.
Qed.

(** X12: only membership in AllowedFileTypes counts: two lists with the same
    entries, in any order and with any repetitions, permit the same types. *)
Theorem type_allowed_membership (l l' : list string) (fileType : string) :
  (forall x, In x l <-> In x l') ->
  type_allowed P l fileType = type_allowed P l' fileType.
Proof.
  intros Hmem. unfold type_allowed. rewrite !(allowed_fold P). cbn [orb].
  assert (Hex : existsb (strings_EqualFold P fileType) l
                = existsb (strings_EqualFold P fileType) l').
  { apply eq_true_iff_eq. rewrite !existsb_exists.
    split; intros (x & Hx & He); exists x; (split; [apply Hmem, Hx|exact He]). }
  destruct l as [|a l], l' as [|b l'].
  - reflexivity.
  - exfalso. apply (proj2 (Hmem b)). left. reflexivity.
  - exfalso. apply (proj1 (Hmem a)). left. reflexivity.
  - replace (0 <? len (a :: l)) with true by (symmetry; apply Z.ltb_lt; unfold len; simpl length; lia).
    replace (0 <? len (b :: l')) with true by (symmetry; apply Z.ltb_lt; unfold len; simpl length; lia).
    exact Hex.
Qed.

(** ** ReadJSON: what is left in the target *)

(** X13: when the first Decode fails, ReadJSON does not decode again.  When
    it succeeds and the second Decode ends in anything but io.EOF, be it
    more data, a syntax error or the error of the size limit, the call
    fails with the one-value error.  In both cases the target holds what
    the first Decode stored. *)
Theorem ReadJSON_keeps_first_value w r data st dec1 data1 err1 w1 :
  json_Decode P (json_decoder P (tools P st) w r) data (world P st)
    = ((dec1, data1, err1), w1) ->
  let r' := mkRequest P (req_info P r) (json_body P (tools P st) w r) in
  (forall e, err1 = Some e ->
     ReadJSON P w r data st
     = (Ret (classify_decode_error P (json_limit (tools P st)) e, r', data1),
        mkState P (tools P st) w1))
  /\ (forall dec2 data2 err2 w2,
        err1 = None ->
        json_Decode P dec1 None w1 = ((dec2, data2, err2), w2) ->
        err2 <> Some EOF ->
        ReadJSON P w r data st
        = (Ret (errors_New "body must contain only one JSON value", r', data1),
           mkState P (tools P st) w2)).
Proof.
  intros H1 r'. rewrite ReadJSON_unfold. cbv zeta. rewrite H1. split.
  - intros e ->. reflexivity.
  - intros dec2 data2 err2 w2 -> H2 Hne. rewrite H2.
    rewrite bool_decide_eq_true_2 by exact Hne. reflexivity.
Qed.

(** ** WriteJSON and ErrorJSON: the response *)

(** WriteJSON once the payload is marshalled: the entries of headers[0]
    are laid over those of the writer, Content-Type is set, and the writer
    is handed to its own WriteHeader and then, with the payload, to its own
    Write, whose error is the result. *)
Lemma WriteJSON_marshalled w status data headers st out :
  Marshal P data = (out, None) ->
  WriteJSON P w status data headers st =
  (let w1 := Header_Set "Content-Type" "application/json"
               match headers with
               | h :: _ =>
                 mkResponseWriter (h ∪ rw_header w) (rw_code w) (rw_body w) (rw_write_err w)
               | [] => w
               end in
   match rw_WriteHeader P status w1 (world P st) with
   | (Panic msg, os1) => (Panic msg, mkState P (tools P st) os1)
   | (Ret w2, os1) =>
     let '((w3, err), os2) := rw_Write P out w2 os1 in
     (Ret (err, w3), mkState P (tools P st) os2)
   end).
Proof.
  intros Hm. unfold WriteJSON. rewrite Hm. cbn [not_nil]. cbv zeta.
  unfold bind at 1. unfold WriteHeader at 1.
  destruct (rw_WriteHeader P status _ (world P st)) as [[w2|msg] os1]; [|reflexivity].
  unfold bind, Write, call. cbn [tools world].
  destruct (rw_Write P out w2 os1) as [[w3 [e|]] os2]; reflexivity.
Qed.

(** X14: when the payload marshals, WriteJSON calls WriteHeader with the
    given status on a writer [w1] whose header map has Content-Type
    application/json, whatever the extra headers say, every other entry of
    headers[0], and the headers of the writer that headers[0] does not
    name, with status, body and connection as they were.  A panic of
    WriteHeader is the panic of the call.  Otherwise the marshalled payload
    goes to Write, and WriteJSON returns the error that Write returns. *)
Theorem WriteJSON_response w status data headers st out :
  Marshal P data = (out, None) ->
  exists w1,
    rw_header w1 !! "Content-Type" = Some ["application/json"]
    /\ (forall h rest key v, headers = h :: rest -> key <> "Content-Type" ->
          h !! key = Some v -> rw_header w1 !! key = Some v)
    /\ (forall key, key <> "Content-Type" ->
          match headers with h :: _ => h !! key = None | [] => True end ->
          rw_header w1 !! key = rw_header w !! key)
    /\ (rw_code w1 = rw_code w /\ rw_body w1 = rw_body w /\ rw_write_err w1 = rw_write_err w)
    /\ (forall msg os1,
          rw_WriteHeader P status w1 (world P st) = (Panic msg, os1) ->
          WriteJSON P w status data headers st = (Panic msg, mkState P (tools P st) os1))
    /\ (forall w2 os1 w3 err os2,
          rw_WriteHeader P status w1 (world P st) = (Ret w2, os1) ->
          rw_Write P out w2 os1 = ((w3, err), os2) ->
          WriteJSON P w status data headers st = (Ret (err, w3), mkState P (tools P st) os2)).
Proof.
  intros Hm. rewrite (WriteJSON_marshalled _ _ _ _ _ _ Hm). cbv zeta.
  exists (Header_Set "Content-Type" "application/json"
            match headers with
            | h :: _ =>
              mkResponseWriter (h ∪ rw_header w) (rw_code w) (rw_body w) (rw_write_err w)
            | [] => w
            end).
  split; [|split; [|split; [|split; [|split]]]].
  - unfold Header_Set. cbn [rw_header]. apply lookup_insert_eq.
  - intros h rest key v -> Hk Hv. unfold Header_Set. cbn [rw_header].
    rewrite lookup_insert_ne by congruence. apply lookup_union_Some_l. exact Hv.
  - intros key Hk Hnone. unfold Header_Set. cbn [rw_header].
    rewrite lookup_insert_ne by congruence.
    destruct headers as [|h rest]; [reflexivity|]. cbn [rw_header].
    apply lookup_union_r. exact Hnone.
  - unfold Header_Set. destruct headers; cbn [rw_code rw_body rw_write_err]; auto.
  - intros msg os1 ->. reflexivity.
  - intros w2 os1 w3 err os2 -> ->. reflexivity.
Qed.

(** X15: the failures of WriteJSON.  When the payload cannot be marshalled,
    the error of Marshal is returned and neither the writer nor the state
    is touched.  Whenever WriteJSON returns, what it returns is either that
    error of Marshal with the writer it was given, or the writer and the
    error that Write returned for the marshalled payload: it fails only
    when Marshal or the write fails. *)
Theorem WriteJSON_failures w status data headers st :
  (forall out e, Marshal P data = (out, Some e) ->
     WriteJSON P w status data headers st = (Ret (Some e, w), st))
  /\ (forall err w' st',
        WriteJSON P w status data headers st = (Ret (err, w'), st') ->
        (err <> None /\ snd (Marshal P data) = err /\ w' = w /\ st' = st)
        \/ (snd (Marshal P data) = None
            /\ tools P st' = tools P st
            /\ exists w2 os1,
                 rw_Write P (fst (Marshal P data)) w2 os1 = ((w', err), world P st'))).
Proof.
  split.
  - intros out e Hm. unfold WriteJSON. rewrite Hm. reflexivity.
  - intros err w' st' H. destruct (Marshal P data) as [out [e|]] eqn:Hm.
    + left. unfold WriteJSON in H. rewrite Hm in H. cbn [not_nil] in H.
      unfold ret in H. injection H as <- <- <-. cbn [snd]. repeat split. discriminate.
    + right. cbn [fst snd]. split; [reflexivity|].
      rewrite (WriteJSON_marshalled _ _ _ _ _ _ Hm) in H. cbv zeta in H.
      destruct (rw_WriteHeader P status _ (world P st)) as [[w2|msg] os1]; [|discriminate].
      destruct (rw_Write P out w2 os1) as [[w3 err3] os2] eqn:Hw.
      injection H as <- <- <-. cbn [tools world]. split; [reflexivity|].
      exists w2, os1. exact Hw.
Qed.

(** X16: ErrorJSON panics on a nil error, before anything is written.  For an
    error [e] it marshals the envelope with the error flag set, the message
    e.Error() and no data, sets Content-Type to application/json on the
    writer, calls WriteHeader with status[0], or with 400 when no status is
    given, and hands the marshalled envelope to Write, whose writer and
    error it returns; a panic of WriteHeader is the panic of the call. *)
Theorem ErrorJSON_response w e status st out :
  let code := match status with s :: _ => s | [] => 400 end in
  let w1 := Header_Set "Content-Type" "application/json" w in
  json_Marshal P (inl (true, Error e)) = (out, None) ->
  ErrorJSON P w None status st
    = (Panic "invalid memory address or nil pointer dereference", st)
  /\ (forall msg os1,
        rw_WriteHeader P code w1 (world P st) = (Panic msg, os1) ->
        ErrorJSON P w (Some e) status st = (Panic msg, mkState P (tools P st) os1))
  /\ (forall w2 os1 w3 err os2,
        rw_WriteHeader P code w1 (world P st) = (Ret w2, os1) ->
        rw_Write P out w2 os1 = ((w3, err), os2) ->
        ErrorJSON P w (Some e) status st = (Ret (err, w3), mkState P (tools P st) os2)).
Proof.
  intros code w1 Hm. split; [reflexivity|].
  assert (Hrun : ErrorJSON P w (Some e) status st
                 = WriteJSON P w code (AnyJSONResponse P (mkJSONResponse P true (Error e) None))
                     [] st) by reflexivity.
  rewrite Hrun, (WriteJSON_marshalled w code _ [] st out) by exact Hm. cbv zeta. fold w1.
  split.
  - intros msg os1 ->. reflexivity.
  - intros w2 os1 w3 err os2 -> ->. reflexivity.
Qed.

(** ** PushJSONToRemote: what it returns *)

(** X17: when the payload cannot be marshalled no request is sent.  Whenever
    the call returns, an error comes with no response and status 0, and a
    nil error comes with a response and the status code of that response. *)
Theorem PushJSONToRemote_results uri data client st :
  (forall out e, Marshal P data = (out, Some e) ->
     PushJSONToRemote P uri data client st = (Ret (None, 0, Some e), st))
  /\ (forall resp code err st',
        PushJSONToRemote P uri data client st = (Ret (resp, code, err), st') ->
        (err <> None -> resp = None /\ code = 0)
        /\ (err = None -> exists r, resp = Some r /\ code = StatusCode r)).
Proof.
  split.
  - intros out e Hm. unfold PushJSONToRemote. rewrite Hm. reflexivity.
  - intros resp code err st' H. unfold PushJSONToRemote in H.
    destruct (Marshal P data) as [jsonData [e|]]; cbn [not_nil] in H.
    { unfold ret in H. injection H as <- <- <- _.
      split; [intros _; split; reflexivity|discriminate]. }
    cbv zeta in H.
    destruct (http_NewRequest_ok P "Post" uri) as [e|]; cbn [not_nil] in H.
    { unfold ret in H. injection H as <- <- <- _.
      split; [intros _; split; reflexivity|discriminate]. }
    apply bind_inv in H as ([response [e|]] & s1 & _ & H); cbn [not_nil] in H.
    { unfold ret in H. injection H as <- <- <- _.
      split; [intros _; split; reflexivity|discriminate]. }
    destruct response as [r0|]; [|discriminate].
    apply defer_inv in H as (s2 & H & _).
    unfold ret in H. injection H as <- <- <-.
    split; [intros Hn; contradiction|]. intros _. exists r0. split; reflexivity.
Qed.

End FurtherProperties.

(** * The theorems on the simulated platform *)

Module Run.

(** The first bytes of a PNG image. *)
Definition png : list Z := [137; 80; 78; 71; 13; 10; 26; 10; 0; 0; 0; 13].

(** The bytes of hi. *)
Definition text : list Z := [104; 105].

Definition request (form : list (string * list Sim.part)) (docs : list string)
  : Request Sim.platform :=
  mkRequest Sim.platform form (Sim.mkBody docs None).

Definition recorder : ResponseWriter := mkResponseWriter ∅ None "" None.

Definition st0 : State Sim.platform := Sim.start Sim.zero_tools.

(** A form with an image and then a text file, for a receiver that allows
    images only. *)
Definition two_parts : Request Sim.platform :=
  request [("file", [Sim.mkPart "a.png" png; Sim.mkPart "b.txt" text])] [].

Definition images_only : Tools := mkTools 0 ["image/png"] 0 false.

End Run.

Lemma Sim_Prime64_contract : Prime64_contract Sim.platform.
Proof.
  intros w p. unfold p.
  change (fst (rand_Prime Sim.platform 64 w))
    with (nth (Sim.drawn w mod 10)%nat Sim.prime_table (2 ^ 64 - 59)).
  assert (H : Forall (fun q => 2 ^ 63 <= q < 2 ^ 64 /\ Z.odd q = true) Sim.prime_table).
  { unfold Sim.prime_table. repeat constructor; try reflexivity; lia. }
  rewrite Forall_forall in H. apply H. apply list_elem_of_In. apply nth_In.
  change (length Sim.prime_table) with 10%nat. apply Nat.mod_upper_bound. lia.
Qed.

Lemma Sim_body_Close_closes : body_Close_closes Sim.platform.
Proof.
  intros b w. simpl. unfold Sim.is_closed. simpl. rewrite Nat.eqb_refl. reflexivity.
Qed.

Lemma RandomString_length_witness :
  0 <= 10
  /\ exists s st', RandomString Sim.platform 10 Run.st0 = (Ret s, st') /\ len_string s = 10.
Proof.
  split; [lia|]. apply (RandomString_length Sim.platform 10 Run.st0). lia.
Defined.

Lemma RandomString_half_alphabet_witness :
  Prime64_contract Sim.platform
  /\ RandomString Sim.platform 12 Run.st0
     = (Ret "fTHnd+P9FvfT", mkState Sim.platform Sim.zero_tools (Sim.mkOS 12 [] [] 0 []))
  /\ (forall c, In c (list_ascii_of_string "fTHnd+P9FvfT") ->
                In c (list_ascii_of_string reachable_alphabet))
  /\ ~ In "a"%char (list_ascii_of_string "fTHnd+P9FvfT").
Proof.
  split; [exact Sim_Prime64_contract|]. split; [vm_compute; reflexivity|].
  apply (RandomString_half_alphabet Sim.platform 12 Run.st0
           (mkState Sim.platform Sim.zero_tools (Sim.mkOS 12 [] [] 0 []))).
  - exact Sim_Prime64_contract.
  - vm_compute. reflexivity.
Defined.

Lemma Slugify_matches_spec_witness :
  (forall r, 0x3000 <= r <= 0x9FFF -> unicode_To_LowerCase Sim.platform r = r)
  /\ Slugify Sim.platform "Now is the Time!" Run.st0 = (Ret ("now-is-the-time", None), Run.st0)
  /\ Slugify Sim.platform "" Run.st0
     = (Ret ("", errors_New "empty string not permitted"), Run.st0).
Proof.
  assert (H : forall r, 0x3000 <= r <= 0x9FFF -> unicode_To_LowerCase Sim.platform r = r)
    by (intros r _; reflexivity).
  split; [exact H|].
  destruct (Slugify_matches_spec Sim.platform H) as (Hspec & Hnow & _).
  split; [apply Hnow|]. rewrite Hspec. reflexivity.
Defined.

Lemma UploadFiles_error_returns_nil_witness :
  exists st',
    UploadFiles Sim.platform Run.two_parts "up" [false] (Sim.start Run.images_only)
    = (Ret ([], errors_New "the uploaded file type is not permitted"), st')
    /\ Sim.has_file "up/a.png" (world Sim.platform st') = true
    /\ UploadOneFile Sim.platform Run.two_parts "up" [false] (Sim.start Run.images_only)
       = (Ret (None, errors_New "the uploaded file type is not permitted"), st').
Proof.
  eexists. split; [vm_compute; reflexivity|]. split; [vm_compute; reflexivity|].
  eapply (UploadFiles_error_returns_nil Sim.platform Run.two_parts "up" [false]
            (Sim.start Run.images_only) []).
  vm_compute. reflexivity.
Defined.


Lemma UploadOneFile_no_parts_panics_witness :
  let r := Run.request [("file", [])] [] in
  CreateDirIfNotExist Sim.platform "up"
    (mkState Sim.platform (default_MaxFileSize (tools Sim.platform Run.st0))
       (world Sim.platform Run.st0))
  = (Ret None, mkState Sim.platform (mkTools 1073741824 [] 0 false) (Sim.mkOS 0 ["up"] [] 0 []))
  /\ UploadFiles Sim.platform r "up" [] Run.st0
     = (Ret ([], None),
        mkState Sim.platform (mkTools 1073741824 [] 0 false) (Sim.mkOS 0 ["up"] [] 0 []))
  /\ UploadOneFile Sim.platform r "up" [] Run.st0
     = (Panic "index out of range",
        mkState Sim.platform (mkTools 1073741824 [] 0 false) (Sim.mkOS 0 ["up"] [] 0 [])).
Proof.
  intros r.
  assert (Hdir : CreateDirIfNotExist Sim.platform "up"
            (mkState Sim.platform (default_MaxFileSize (tools Sim.platform Run.st0))
               (world Sim.platform Run.st0))
          = (Ret None, mkState Sim.platform (mkTools 1073741824 [] 0 false)
                         (Sim.mkOS 0 ["up"] [] 0 [])))
    by (vm_compute; reflexivity).
  split; [exact Hdir|].
  apply (UploadOneFile_no_parts_panics Sim.platform r "up" [] Run.st0 _
           [("file", [])] (Sim.mkOS 0 ["up"] [] 0 []) Hdir).
  - reflexivity.
  - intros f [<-|[]]. reflexivity.
Defined.

Lemma ReadJSON_one_value_witness :
  let r := Run.request [] ["[1, 2]"; "[3]"] in
  let dec := json_decoder Sim.platform Sim.zero_tools Run.recorder r in
  exists dec1,
    json_Decode Sim.platform dec None Sim.init = ((dec1, Some "[1, 2]", None), Sim.init)
    /\ json_Decode Sim.platform dec1 None Sim.init <> ((dec1, None, Some EOF), Sim.init)
    /\ exists r' data' st',
         ReadJSON Sim.platform Run.recorder r None Run.st0
         = (Ret (errors_New "body must contain only one JSON value", r', data'), st').
Proof.
  intros r dec. eexists. split; [vm_compute; reflexivity|]. split; [vm_compute; discriminate|].
  edestruct (ReadJSON_one_value Sim.platform Run.recorder r None Run.st0)
    as (err & r' & data' & st' & Hrun & _ & Hmany).
  - vm_compute. reflexivity.
  - vm_compute. reflexivity.
  - exists r', data', st'. rewrite Hrun. rewrite Hmany; [reflexivity|reflexivity|discriminate].
Defined.

Lemma ReadJSON_size_limit_witness :
  let t := mkTools 0 [] 5 false in
  let r := Run.request [] ["[1, 2, 3, 4]"] in
  exists dec1,
    json_Decode Sim.platform (json_decoder Sim.platform t Run.recorder r) None Sim.init
    = ((dec1, None, Some (ErrorString "http: request body too large")), Sim.init)
    /\ exists r',
         ReadJSON Sim.platform Run.recorder r None (Sim.start t)
         = (Ret (errors_New "body must not be larger than 5 bytes", r', None), Sim.start t).
Proof.
  intros t r. exists (json_decoder Sim.platform t Run.recorder r).
  split; [vm_compute; reflexivity|].
  destruct (ReadJSON_size_limit Sim.platform Run.recorder r None (Sim.start t)) as [_ H].
  destruct (H (json_decoder Sim.platform t Run.recorder r) None Sim.init) as [r' Hr'];
    [vm_compute; reflexivity|].
  exists r'. exact Hr'.
Defined.

Lemma PushJSONToRemote_body_closed_witness :
  body_Close_closes Sim.platform
  /\ exists st',
       PushJSONToRemote Sim.platform "http://example.com/some/path"
         (AnyValue Sim.platform "{}") [] Run.st0
       = (Ret (Some (mkResponse 200 0%nat), 200, None), st')
       /\ body_closed Sim.platform 0%nat (world Sim.platform st') = true.
Proof.
  split; [exact Sim_body_Close_closes|]. eexists. split; [vm_compute; reflexivity|].
  eapply (PushJSONToRemote_body_closed Sim.platform "http://example.com/some/path"
            (AnyValue Sim.platform "{}") [] Run.st0 (mkResponse 200 0%nat) 200).
  - exact Sim_body_Close_closes.
  - vm_compute. reflexivity.
Defined.

(** C9, against the claim as stated: a call that returns a response whose
    body was open when the client delivered it, and is closed when the call
    returns. *)
Lemma PushJSONToRemote_returns_closed_body :
  let uri := "http://example.com/some/path" in
  let header : Header := <["Content-Type" := ["application/json"]]> ∅ in
  let delivered := client_Do Sim.platform tt "Post" uri "{}" header Sim.init in
  let returned := PushJSONToRemote Sim.platform uri (AnyValue Sim.platform "{}") [] Run.st0 in
  fst delivered = (Some (mkResponse 200 0%nat), None)
  /\ body_closed Sim.platform 0%nat (snd delivered) = false
  /\ fst returned = Ret (Some (mkResponse 200 0%nat), 200, None)
  /\ body_closed Sim.platform 0%nat (world Sim.platform (snd returned)) = true.
Proof. vm_compute. repeat split; reflexivity. Qed.

(** C7, against the claim as stated: with MaxJSONSize 5, a body of nine
    bytes, the value [1] followed by six spaces, is over the limit, and the
    call fails with the one-value error, not with the size-limit error. *)
Lemma ReadJSON_oversize_body_one_value_error :
  let t := mkTools 0 [] 5 false in
  let r := Run.request [] ["[1]"; "      "] in
  let returned := ReadJSON Sim.platform Run.recorder r None (Sim.start t) in
  json_limit t = 5
  /\ json_limit t < len_string "[1]" + len_string "      "
  /\ (exists r' data',
        fst returned = Ret (errors_New "body must contain only one JSON value", r', data'))
  /\ errors_New "body must contain only one JSON value"
     <> errors_New "body must not be larger than 5 bytes".
Proof.
  intros t r returned. split; [reflexivity|]. split; [reflexivity|].
  split; [eexists _, _; reflexivity|discriminate].
Qed.


(** C2, against the claim as stated: UploadFiles on a receiver whose
    MaxFileSize is zero leaves it with another MaxFileSize. *)
Lemma UploadFiles_changes_MaxFileSize :
  let after := tools Sim.platform (snd (UploadFiles Sim.platform Run.two_parts "up" [] Run.st0)) in
  MaxFileSize (tools Sim.platform Run.st0) = 0
  /\ MaxFileSize after = 1073741824
  /\ MaxFileSize after <> MaxFileSize (tools Sim.platform Run.st0).
Proof. vm_compute. repeat split; try reflexivity. discriminate. Qed.


(** * The further properties on the simulated platforms *)

Lemma Sim_dir_contract : dir_contract Sim.platform.
Proof.
  split.
  - intros path mode w w' H. simpl in H. unfold Sim.MkdirAll in H.
    destruct (String.prefix "/proc" path); [discriminate|]. injection H as <-.
    simpl. unfold Sim.Stat. simpl. rewrite String.eqb_refl. reflexivity.
  - intros path w H. simpl in *. unfold Sim.Stat in *.
    destruct (existsb (String.eqb path) (Sim.dirs w) || Sim.has_file path w) eqn:E;
      simpl in *; rewrite ?E; exact H.
Qed.

Lemma RandomString_in_alphabet_witness :
  RandomString Sim.platform 12 Run.st0
  = (Ret "fTHnd+P9FvfT", mkState Sim.platform Sim.zero_tools (Sim.mkOS 12 [] [] 0 []))
  /\ forall c, In c (list_ascii_of_string "fTHnd+P9FvfT") ->
               In c (list_ascii_of_string randomStringSource).
Proof.
  assert (H : RandomString Sim.platform 12 Run.st0
              = (Ret "fTHnd+P9FvfT",
                 mkState Sim.platform Sim.zero_tools (Sim.mkOS 12 [] [] 0 [])))
    by (vm_compute; reflexivity).
  split; [exact H|]. exact (RandomString_in_alphabet Sim.platform _ _ _ _ H).
Defined.

Lemma RandomString_bounds_witness :
  -3 < 0
  /\ RandomString Sim.platform (-3) Run.st0 = (Panic "makeslice: len out of range", Run.st0).
Proof.
  split; [lia|]. apply (RandomString_bounds Sim.platform (-3) Run.st0). lia.
Defined.

Lemma Slugify_slug_shape_witness :
  Slugify Sim.platform "  Now -- is the Time!  " Run.st0
  = (Ret ("now-is-the-time", None), Run.st0)
  /\ slug_shaped (bytes "now-is-the-time").
Proof.
  assert (H : Slugify Sim.platform "  Now -- is the Time!  " Run.st0
              = (Ret ("now-is-the-time", None), Run.st0)) by (vm_compute; reflexivity).
  split; [exact H|]. exact (Slugify_slug_shape Sim.platform _ _ _ _ H).
Defined.

Lemma Slugify_idempotent_witness :
  Slugify Sim.platform "Hello, World" Run.st0 = (Ret ("hello-world", None), Run.st0)
  /\ Slugify Sim.platform "hello-world" Run.st0 = (Ret ("hello-world", None), Run.st0).
Proof.
  assert (H : Slugify Sim.platform "Hello, World" Run.st0
              = (Ret ("hello-world", None), Run.st0)) by (vm_compute; reflexivity).
  split; [exact H|]. exact (Slugify_idempotent Sim.platform _ _ _ _ Run.st0 H).
Defined.

Lemma Slugify_succeeds_iff_witness :
  "+ & $#@!" <> ""
  /\ existsb in_class (Utf8.runes (strings_ToLower Sim.platform "+ & $#@!")) = false
  /\ Slugify Sim.platform "+ & $#@!" Run.st0
     = (Ret ("", errors_New "after removing unsafe characters, slug is zero length"), Run.st0).
Proof.
  assert (Hne : "+ & $#@!" <> "") by discriminate.
  assert (Hf : existsb in_class (Utf8.runes (strings_ToLower Sim.platform "+ & $#@!")) = false)
    by (vm_compute; reflexivity).
  split; [exact Hne|]. split; [exact Hf|].
  exact (proj2 (Slugify_succeeds_iff Sim.platform "+ & $#@!" Run.st0 Hne) Hf).
Defined.

Lemma CreateDirIfNotExist_outcome_witness :
  CreateDirIfNotExist Sim.platform "/proc/uploads" Run.st0
  = (Ret (errors_New "mkdir: permission denied"), Run.st0)
  /\ os_IsNotExist Sim.platform (fst (os_Stat Sim.platform "/proc/uploads" Sim.init)) = true
  /\ os_MkdirAll Sim.platform "/proc/uploads" 493 Sim.init
     = (errors_New "mkdir: permission denied", Sim.init).
Proof.
  assert (H : CreateDirIfNotExist Sim.platform "/proc/uploads" Run.st0
              = (Ret (errors_New "mkdir: permission denied"), Run.st0))
    by (vm_compute; reflexivity).
  split; [exact H|].
  destruct (CreateDirIfNotExist_outcome Sim.platform "/proc/uploads" Run.st0) as (_ & _ & Hm).
  exact (Hm _ _ H).
Defined.

Lemma CreateDirIfNotExist_idempotent_witness :
  let st1 := mkState Sim.platform Sim.zero_tools (Sim.mkOS 0 ["up"] [] 0 []) in
  dir_contract Sim.platform
  /\ CreateDirIfNotExist Sim.platform "up" Run.st0 = (Ret None, st1)
  /\ CreateDirIfNotExist Sim.platform "up" st1 = (Ret None, st1).
Proof.
  intros st1.
  assert (H : CreateDirIfNotExist Sim.platform "up" Run.st0 = (Ret None, st1))
    by (vm_compute; reflexivity).
  split; [exact Sim_dir_contract|]. split; [exact H|].
  exact (CreateDirIfNotExist_idempotent Sim.platform "up" Run.st0 st1 Sim_dir_contract H).
Defined.

Lemma UploadFiles_stores_every_part_witness :
  let r := Run.request [("file", [Sim.mkPart "a.png" Run.png]);
                        ("more", [Sim.mkPart "b.tar.gz" Run.png])] [] in
  let files := [mkUploadedFile "fTHnd+P9FvfTHnd+P9FvfTHnd.png" "a.png" 12;
                mkUploadedFile "+P9FvfTHnd+P9FvfTHnd+P9Fv.gz" "b.tar.gz" 12] in
  let out := UploadFiles Sim.platform r "up" [] Run.st0 in
  out = (Ret (files, None), snd out)
  /\ exists st2 File w3,
       CreateDirIfNotExist Sim.platform "up"
         (mkState Sim.platform (default_MaxFileSize (tools Sim.platform Run.st0))
            (world Sim.platform Run.st0)) = (Ret None, st2)
       /\ http_ParseMultipartForm Sim.platform (req_info Sim.platform r) (Body Sim.platform r)
            (MaxFileSize (tools Sim.platform st2)) (world Sim.platform st2) = ((File, None), w3)
       /\ Forall2 (stored_as Sim.platform true) (concat (map snd File)) files
       /\ length files = length (concat (map snd File)).
Proof.
  intros r files out.
  assert (H : out = (Ret (files, None), snd out)) by (vm_compute; reflexivity).
  split; [exact H|].
  exact (UploadFiles_stores_every_part Sim.platform r "up" [] Run.st0 files (snd out) H).
Defined.

Lemma UploadFiles_early_errors_witness :
  UploadFiles Sim.platform Run.two_parts "/proc/up" [] Run.st0
  = (Ret ([], errors_New "mkdir: permission denied"),
     mkState Sim.platform (mkTools 1073741824 [] 0 false) Sim.init)
  /\ UploadFiles SimFaulty.platform
       (mkRequest SimFaulty.platform [] (Sim.mkBody ["[1]"] None)) "up" []
       (SimFaulty.start Sim.zero_tools)
     = (Ret ([], errors_New "the uploaded file is too big"),
        mkState SimFaulty.platform (mkTools 1073741824 [] 0 false) (Sim.mkOS 0 ["up"] [] 0 [])).
Proof.
  split.
  - apply (UploadFiles_early_errors Sim.platform Run.two_parts "/proc/up" [] Run.st0).
    vm_compute. reflexivity.
  - apply (proj2 (UploadFiles_early_errors SimFaulty.platform
                    (mkRequest SimFaulty.platform [] (Sim.mkBody ["[1]"] None)) "up" []
                    (SimFaulty.start Sim.zero_tools))
             (mkState SimFaulty.platform (mkTools 1073741824 [] 0 false)
                (Sim.mkOS 0 ["up"] [] 0 []))
             [] (ErrorString "request Content-Type isn't multipart/form-data")
             (Sim.mkOS 0 ["up"] [] 0 [])).
    + vm_compute. reflexivity.
    + vm_compute. reflexivity.
Defined.

Lemma UploadOneFile_returns_first_witness :
  let r := Run.request [("file", [Sim.mkPart "a.png" Run.png; Sim.mkPart "b.txt" Run.text])] [] in
  let out := UploadFiles Sim.platform r "up" [false] Run.st0 in
  out = (Ret ([mkUploadedFile "a.png" "a.png" 12; mkUploadedFile "b.txt" "b.txt" 2], None),
         snd out)
  /\ Sim.has_file "up/b.txt" (world Sim.platform (snd out)) = true
  /\ UploadOneFile Sim.platform r "up" [false] Run.st0
     = (Ret (Some (mkUploadedFile "a.png" "a.png" 12), None), snd out).
Proof.
  intros r out.
  assert (H : out = (Ret ([mkUploadedFile "a.png" "a.png" 12;
                           mkUploadedFile "b.txt" "b.txt" 2], None), snd out))
    by (vm_compute; reflexivity).
  split; [exact H|]. split; [vm_compute; reflexivity|].
  exact (UploadOneFile_returns_first Sim.platform r "up" [false] Run.st0 _ _ _ H).
Defined.

Lemma upload_part_closes_part_witness :
  let hdr := Sim.mkPart "b.txt" Run.text in
  hdr_Open Sim.platform hdr Sim.init = ((hdr, None), Sim.init)
  /\ exists o w2,
       upload_part Sim.platform "up" false hdr [] (Sim.start Run.images_only)
       = (o, mkState Sim.platform Run.images_only (snd (file_Close Sim.platform hdr w2))).
Proof.
  intros hdr. split; [reflexivity|].
  apply (upload_part_closes_part Sim.platform "up" false hdr [] (Sim.start Run.images_only)
           hdr None Sim.init); reflexivity.
Defined.

Lemma type_allowed_membership_witness :
  (forall x, In x ["image/png"; "image/jpeg"] <-> In x ["image/jpeg"; "image/png"; "image/jpeg"])
  /\ type_allowed Sim.platform ["image/png"; "image/jpeg"] "IMAGE/PNG"
     = type_allowed Sim.platform ["image/jpeg"; "image/png"; "image/jpeg"] "IMAGE/PNG".
Proof.
  assert (H : forall x, In x ["image/png"; "image/jpeg"]
                        <-> In x ["image/jpeg"; "image/png"; "image/jpeg"])
    by (intros x; simpl; tauto).
  split; [exact H|]. exact (type_allowed_membership Sim.platform _ _ _ H).
Defined.

Lemma ReadJSON_keeps_first_value_witness :
  let t := mkTools 0 [] 5 false in
  let r := Run.request [] ["[1]"; "      "] in
  exists dec1 dec2 r',
    json_Decode Sim.platform (json_decoder Sim.platform t Run.recorder r) None Sim.init
    = ((dec1, Some "[1]", None), Sim.init)
    /\ json_Decode Sim.platform dec1 None Sim.init
       = ((dec2, None, errors_New "http: request body too large"), Sim.init)
    /\ ReadJSON Sim.platform Run.recorder r None (Sim.start t)
       = (Ret (errors_New "body must contain only one JSON value", r', Some "[1]"), Sim.start t).
Proof.
  intros t r. eexists _, _, _. split; [vm_compute; reflexivity|].
  split; [vm_compute; reflexivity|].
  eapply (proj2 (ReadJSON_keeps_first_value Sim.platform Run.recorder r None (Sim.start t)
                   _ (Some "[1]") None Sim.init ltac:(vm_compute; reflexivity))).
  - reflexivity.
  - vm_compute. reflexivity.
  - discriminate.
Defined.

Lemma WriteJSON_response_witness :
  let extra : Header := <["Content-Type" := ["text/html"]]> (<["FOO" := ["BAR"]]> ∅) in
  let sent : Header := <["Content-Type" := ["application/json"]]> (<["FOO" := ["BAR"]]> ∅) in
  Marshal Sim.platform (AnyValue Sim.platform "[1]") = ("[1]", None)
  /\ WriteJSON Sim.platform Run.recorder 200 (AnyValue Sim.platform "[1]") [extra] Run.st0
     = (Ret (None, mkResponseWriter sent (Some 200) "[1]" None), Run.st0)
  /\ WriteJSON Sim.platform Run.recorder 204 (AnyValue Sim.platform "[1]") [extra] Run.st0
     = (Ret (errors_New "http: request method or response status code does not allow body",
             mkResponseWriter sent (Some 204) "" None), Run.st0)
  /\ WriteJSON Sim.platform Run.recorder 42 (AnyValue Sim.platform "[1]") [extra] Run.st0
     = (Panic "invalid WriteHeader code", Run.st0).
Proof.
  intros extra sent.
  assert (Hm : Marshal Sim.platform (AnyValue Sim.platform "[1]") = ("[1]", None))
    by reflexivity.
  split; [exact Hm|].
  assert (Hsent : forall w1 : ResponseWriter,
            rw_header w1 !! "Content-Type" = Some ["application/json"] ->
            (forall key, key <> "Content-Type" -> rw_header w1 !! key = extra !! key) ->
            rw_code w1 = None /\ rw_body w1 = "" /\ rw_write_err w1 = None ->
            w1 = mkResponseWriter sent None "" None).
  { intros [h c b e] Hct Hother (Hc & Hb & He).
    cbn [rw_header rw_code rw_body rw_write_err] in *. subst c b e. f_equal.
    apply map_eq. intros key. destruct (decide (key = "Content-Type")) as [->|Hk].
    - rewrite Hct. reflexivity.
    - rewrite (Hother key Hk).
      transitivity ((<["FOO" := ["BAR"]]> ∅ : Header) !! key); [|symmetry];
        apply lookup_insert_ne; congruence. }
  assert (Hw1 : forall status,
            exists w1, w1 = mkResponseWriter sent None "" None
              /\ (forall msg os1,
                    rw_WriteHeader Sim.platform status w1 (world Sim.platform Run.st0)
                      = (Panic msg, os1) ->
                    WriteJSON Sim.platform Run.recorder status (AnyValue Sim.platform "[1]")
                      [extra] Run.st0
                    = (Panic msg, mkState Sim.platform (tools Sim.platform Run.st0) os1))
              /\ (forall w2 os1 w3 err os2,
                    rw_WriteHeader Sim.platform status w1 (world Sim.platform Run.st0)
                      = (Ret w2, os1) ->
                    rw_Write Sim.platform "[1]" w2 os1 = ((w3, err), os2) ->
                    WriteJSON Sim.platform Run.recorder status (AnyValue Sim.platform "[1]")
                      [extra] Run.st0
                    = (Ret (err, w3), mkState Sim.platform (tools Sim.platform Run.st0) os2))).
  { intros status.
    destruct (WriteJSON_response Sim.platform Run.recorder status (AnyValue Sim.platform "[1]")
                [extra] Run.st0 "[1]" Hm)
      as (w1 & Hct & Hextra & Hkept & Hrest & Hpanic & Hret).
    exists w1. split; [|split; [exact Hpanic|exact Hret]].
    apply Hsent; [exact Hct| |exact Hrest].
    intros key Hk. destruct (extra !! key) as [v|] eqn:Ev.
    - exact (Hextra extra [] key v eq_refl Hk Ev).
    - rewrite (Hkept key Hk Ev). reflexivity. }
  split; [|split].
  - destruct (Hw1 200) as (w1 & -> & _ & Hret). eapply Hret; reflexivity.
  - destruct (Hw1 204) as (w1 & -> & _ & Hret). eapply Hret; reflexivity.
  - destruct (Hw1 42) as (w1 & -> & Hpanic & _). eapply Hpanic; reflexivity.
Defined.

Lemma WriteJSON_failures_witness :
  let broken := mkResponseWriter ∅ None "" (errors_New "broken pipe") in
  let sent : Header := <["Content-Type" := ["application/json"]]> ∅ in
  let w' := mkResponseWriter sent (Some 200) "" (errors_New "broken pipe") in
  WriteJSON SimFaulty.platform Run.recorder 200 (AnyValue SimFaulty.platform "") []
    (SimFaulty.start Sim.zero_tools)
  = (Ret (errors_New "json: unsupported value", Run.recorder), SimFaulty.start Sim.zero_tools)
  /\ WriteJSON Sim.platform broken 200 (AnyValue Sim.platform "[1]") [] Run.st0
     = (Ret (errors_New "broken pipe", w'), Run.st0)
  /\ exists w2 os1,
       rw_Write Sim.platform "[1]" w2 os1
       = ((w', errors_New "broken pipe"), world Sim.platform Run.st0).
Proof.
  intros broken sent w'.
  assert (Hrun : WriteJSON Sim.platform broken 200 (AnyValue Sim.platform "[1]") [] Run.st0
                 = (Ret (errors_New "broken pipe", w'), Run.st0)) by reflexivity.
  split; [|split; [exact Hrun|]].
  - apply (proj1 (WriteJSON_failures SimFaulty.platform Run.recorder 200
                    (AnyValue SimFaulty.platform "") [] (SimFaulty.start Sim.zero_tools)) "").
    reflexivity.
  - destruct (proj2 (WriteJSON_failures Sim.platform broken 200
                       (AnyValue Sim.platform "[1]") [] Run.st0) _ _ _ Hrun)
      as [(_ & Hm & _)|(_ & _ & Hw)]; [discriminate Hm|exact Hw].
Defined.

Lemma ErrorJSON_response_witness :
  let out := "{" ++ Sim.quote "error" ++ ":true," ++ Sim.quote "message" ++ ":"
               ++ Sim.quote "boom" ++ "}" in
  let sent : Header := <["Content-Type" := ["application/json"]]> ∅ in
  json_Marshal Sim.platform (inl (true, "boom")) = (out, None)
  /\ ErrorJSON Sim.platform Run.recorder (errors_New "boom") [503] Run.st0
     = (Ret (None, mkResponseWriter sent (Some 503) out None), Run.st0)
  /\ ErrorJSON Sim.platform Run.recorder (errors_New "boom") [] Run.st0
     = (Ret (None, mkResponseWriter sent (Some 400) out None), Run.st0)
  /\ ErrorJSON Sim.platform Run.recorder None [503] Run.st0
     = (Panic "invalid memory address or nil pointer dereference", Run.st0).
Proof.
  intros out sent.
  assert (Hm : json_Marshal Sim.platform (inl (true, Error (ErrorString "boom"))) = (out, None))
    by reflexivity.
  split; [exact Hm|]. split; [|split].
  - eapply (proj2 (proj2 (ErrorJSON_response Sim.platform Run.recorder (ErrorString "boom")
                            [503] Run.st0 out Hm))); reflexivity.
  - eapply (proj2 (proj2 (ErrorJSON_response Sim.platform Run.recorder (ErrorString "boom")
                            [] Run.st0 out Hm))); reflexivity.
  - exact (proj1 (ErrorJSON_response Sim.platform Run.recorder (ErrorString "boom")
                    [503] Run.st0 out Hm)).
Defined.

Lemma PushJSONToRemote_results_witness :
  let failed := PushJSONToRemote Sim.platform "" (AnyValue Sim.platform "[1]") [] Run.st0 in
  PushJSONToRemote SimFaulty.platform "http://example.com" (AnyValue SimFaulty.platform "") []
    (SimFaulty.start Sim.zero_tools)
  = (Ret (None, 0, errors_New "json: unsupported value"), SimFaulty.start Sim.zero_tools)
  /\ failed = (Ret (None, 0, errors_New "Post: unsupported protocol scheme"), Run.st0)
  /\ ((errors_New "Post: unsupported protocol scheme" <> None ->
       (None : option (Response nat)) = None /\ 0 = 0)
      /\ (errors_New "Post: unsupported protocol scheme" = None ->
          exists r : Response nat, None = Some r /\ 0 = StatusCode r)).
Proof.
  intros failed.
  assert (E : failed = (Ret (None, 0, errors_New "Post: unsupported protocol scheme"), Run.st0))
    by (vm_compute; reflexivity).
  split; [|split; [exact E|]].
  - apply (proj1 (PushJSONToRemote_results SimFaulty.platform "http://example.com"
                    (AnyValue SimFaulty.platform "") [] (SimFaulty.start Sim.zero_tools)) "").
    reflexivity.
  - exact (proj2 (PushJSONToRemote_results Sim.platform "" (AnyValue Sim.platform "[1]")
                    [] Run.st0) _ _ _ _ E).
Defined.
